(** * raycast2api: the protocol translation layer of [service/utls.go],
      [service/types.go] and [service/handlers.go], embedded in Rocq.

    The gateway accepts chat-completions requests, rewrites them for the
    Raycast backend and translates the backend's event stream back.  This file
    embeds the message adapter ([convertMessages]), the event extraction of
    [parseSSEResponse], the streaming re-emitter ([handleStreamingResponse]),
    the non-streaming aggregator ([handleNonStreamingResponse] and
    [extractTextFromJSON]) and the request preparation of
    [handleChatCompletions], and proves properties of them.

    Go strings are byte sequences: they are [string]s here, one [ascii] per
    byte.  Go's [float64] is [spec_float] at binary64.  The dynamic values
    that [encoding/json] stores in an [interface{}] are the type [value], whose
    maps are stdpp's [gmap string value].

    The library functions that decide what the handlers do are written out:
    [strings.TrimSpace], [HasPrefix], [TrimPrefix], [HasSuffix] and [Split],
    the line readers of [bufio], and [json.Unmarshal] for the three targets
    the service decodes into.  All of them are total functions by structural
    recursion on the input.

    Effects are explicit.  The calls of [uuid.New()] and [time.Now()] read a
    [World] at a call counter; what a handler writes to the client is a list
    of events or a reply value, with the JSON of a chunk or of a document
    left as the record that is marshalled.  Calls of [log.Printf] are left
    out: no result depends on them. *)

From Stdlib Require Import ZArith String Ascii List Bool Lia.
From Stdlib Require Import Floats.SpecFloat.
From stdpp Require Import base option list gmap strings sorting.

#[local] Set Warnings "-register-all".
#[local] Open Scope string_scope.
#[local] Open Scope list_scope.

(** ** Bytes *)

Definition byte_val (c : ascii) : N := N_of_ascii c.

Definition LF : ascii := "010"%char.
Definition CR : ascii := "013"%char.
Definition DQUOTE : ascii := "034"%char.

Definition in_range (lo hi : N) (c : ascii) : bool :=
  (lo <=? byte_val c)%N && (byte_val c <=? hi)%N.

Definition is_byte (n : N) (c : ascii) : bool := (byte_val c =? n)%N.

(** ** The [strings] package of Go, as far as the service uses it *)

Module GoStrings.

(** [rest] when [s = prefix ++ rest]. *)
Fixpoint strip_prefix (s prefix : string) {struct prefix} : option string :=
  match prefix with
  | EmptyString => Some s
  | String p prefix' =>
      match s with
      | EmptyString => None
      | String c s' => if Ascii.eqb c p then strip_prefix s' prefix' else None
      end
  end.

Definition HasPrefix (s prefix : string) : bool :=
  match strip_prefix s prefix with Some _ => true | None => false end.

Definition TrimPrefix (s prefix : string) : string :=
  match strip_prefix s prefix with Some rest => rest | None => s end.

(** [s] ends with [suffix]: it is [suffix], or its tail ends with it. *)
Fixpoint HasSuffix (s suffix : string) : bool :=
  String.eqb s suffix ||
  match s with
  | EmptyString => false
  | String _ s' => HasSuffix s' suffix
  end.

(** [strings.Split(s, "\n")]: the pieces between line feeds; [n] line feeds
    give [n + 1] pieces. *)
Fixpoint Split_LF (s : string) : list string :=
  match s with
  | EmptyString => [EmptyString]
  | String c s' =>
      if Ascii.eqb c LF then EmptyString :: Split_LF s'
      else match Split_LF s' with
           | piece :: pieces => String c piece :: pieces
           | [] => [String c EmptyString]
           end
  end.

(** White space as [unicode.IsSpace] has it, on the UTF-8 encoding:
    the six ASCII characters, U+0085, U+00A0, U+1680, U+2000..U+200A,
    U+2028, U+2029, U+202F, U+205F and U+3000. *)
Definition isSpace1 (c : ascii) : bool :=
  in_range 9 13 c || is_byte 32 c.

Definition isSpace2 (c1 c2 : ascii) : bool :=
  is_byte 194 c1 && (is_byte 133 c2 || is_byte 160 c2).

Definition isSpace3 (c1 c2 c3 : ascii) : bool :=
  (is_byte 225 c1 && is_byte 154 c2 && is_byte 128 c3)
  || (is_byte 226 c1 && is_byte 128 c2
      && (in_range 128 138 c3 || is_byte 168 c3 || is_byte 169 c3
          || is_byte 175 c3))
  || (is_byte 226 c1 && is_byte 129 c2 && is_byte 159 c3)
  || (is_byte 227 c1 && is_byte 128 c2 && is_byte 128 c3).

(** [strings.TrimLeftFunc(s, unicode.IsSpace)]. *)
Fixpoint TrimLeftSpace (s : string) : string :=
  match s with
  | EmptyString => EmptyString
  | String c1 r1 =>
      if isSpace1 c1 then TrimLeftSpace r1
      else match r1 with
           | String c2 r2 =>
               if isSpace2 c1 c2 then TrimLeftSpace r2
               else match r2 with
                    | String c3 r3 =>
                        if isSpace3 c1 c2 c3 then TrimLeftSpace r3 else s
                    | EmptyString => s
                    end
           | EmptyString => s
           end
  end.

(** [s] is nothing but white space. *)
Fixpoint allSpace (s : string) : bool :=
  match s with
  | EmptyString => true
  | String c1 r1 =>
      if isSpace1 c1 then allSpace r1
      else match r1 with
           | String c2 r2 =>
               if isSpace2 c1 c2 then allSpace r2
               else match r2 with
                    | String c3 r3 =>
                        if isSpace3 c1 c2 c3 then allSpace r3 else false
                    | EmptyString => false
                    end
           | EmptyString => false
           end
  end.

(** [strings.TrimRightFunc(s, unicode.IsSpace)]: the longest suffix made of
    white space is cut. *)
Fixpoint TrimRightSpace (s : string) : string :=
  if allSpace s then EmptyString
  else match s with
       | EmptyString => EmptyString
       | String c s' => String c (TrimRightSpace s')
       end.

Definition TrimSpace (s : string) : string :=
  TrimRightSpace (TrimLeftSpace s).

End GoStrings.

(** ** The readers of [bufio] *)

Module GoBufio.

(** The lines that successive calls of [reader.ReadString('\n')] return
    before the first error, each with its line feed.  [line] holds the bytes
    of the line being read.  What follows the last line feed comes back
    together with [io.EOF], and the caller's loop breaks on any error before
    it looks at the data. *)
Fixpoint ReadString_from (line : string) (input : string) : list string :=
  match input with
  | EmptyString => []
  | String c input' =>
      if Ascii.eqb c LF
      then (line +:+ String LF EmptyString) :: ReadString_from EmptyString input'
      else ReadString_from (line +:+ String c EmptyString) input'
  end.

Definition ReadString_lines (input : string) : list string :=
  ReadString_from EmptyString input.

(** [bufio.MaxScanTokenSize]. *)
Definition MaxScanTokenSize : N := 65536.

(** The lines of [input] without their line feed; a last line that has no
    line feed counts when it is not empty. *)
Fixpoint raw_lines_from (line : string) (input : string) : list string :=
  match input with
  | EmptyString =>
      match line with EmptyString => [] | _ => [line] end
  | String c input' =>
      if Ascii.eqb c LF then line :: raw_lines_from EmptyString input'
      else raw_lines_from (line +:+ String c EmptyString) input'
  end.

(** [dropCR]: one trailing carriage return is removed. *)
Fixpoint dropCR (line : string) : string :=
  match line with
  | EmptyString => EmptyString
  | String c EmptyString =>
      if Ascii.eqb c CR then EmptyString else line
  | String c line' => String c (dropCR line')
  end.

(** The scanner stops with [ErrTooLong] at the first line that does not fit
    its buffer. *)
Fixpoint fitting (lines : list string) : list string :=
  match lines with
  | [] => []
  | l :: lines' =>
      if (N.of_nat (String.length l) <? MaxScanTokenSize)%N
      then l :: fitting lines'
      else []
  end.

(** The tokens that [scanner.Scan()] and [scanner.Text()] deliver for a
    [bufio.NewScanner(strings.NewReader(input))] with the default
    [ScanLines] split function. *)
Definition Scanner_lines (input : string) : list string :=
  dropCR <$> fitting (raw_lines_from EmptyString input).

End GoBufio.

(** ** [encoding/json]: the scanner *)

Module GoJSON.

(** The syntax tree of a JSON text.  A number keeps its literal, a string
    holds its bytes after unquoting, an object keeps its members in the
    order of the text. *)
Inductive json : Type :=
  | JNull
  | JBool (b : bool)
  | JNumber (lit : string)
  | JString (s : string)
  | JArray (items : list json)
  | JObject (members : list (string * json)).

Inductive token : Type :=
  | TLBrace | TRBrace | TLBracket | TRBracket | TComma | TColon
  | TString (raw : string)
  | TNumber (lit : string)
  | TTrue | TFalse | TNull.

(** Where the scanner stands inside a number literal. *)
Inductive numState : Type :=
  | NNeg | NZero | NInt | NDot | NFrac | NE | NESign | NExp.

Inductive lexState : Type :=
  | LStart
  | LStr (raw : string)
  | LEsc (raw : string)
  | LHex (raw : string) (more : nat)
  | LNum (lit : string) (st : numState)
  | LLit (rest : string) (t : token).

Definition snoc (s : string) (c : ascii) : string := s +:+ String c EmptyString.

Definition isJSONSpace (c : ascii) : bool :=
  is_byte 32 c || is_byte 9 c || is_byte 13 c || is_byte 10 c.

Definition isDigit (c : ascii) : bool := in_range 48 57 c.

Definition isHex (c : ascii) : bool :=
  isDigit c || in_range 97 102 c || in_range 65 70 c.

Definition num_accepting (st : numState) : bool :=
  match st with
  | NZero | NInt | NFrac | NExp => true
  | NNeg | NDot | NE | NESign => false
  end.

Definition isExpChar (c : ascii) : bool := is_byte 101 c || is_byte 69 c.

Definition num_step (st : numState) (c : ascii) : option numState :=
  match st with
  | NNeg => if is_byte 48 c then Some NZero
            else if in_range 49 57 c then Some NInt else None
  | NZero => if is_byte 46 c then Some NDot
             else if isExpChar c then Some NE else None
  | NInt => if isDigit c then Some NInt
            else if is_byte 46 c then Some NDot
            else if isExpChar c then Some NE else None
  | NDot => if isDigit c then Some NFrac else None
  | NFrac => if isDigit c then Some NFrac
             else if isExpChar c then Some NE else None
  | NE => if is_byte 43 c || is_byte 45 c then Some NESign
          else if isDigit c then Some NExp else None
  | NESign => if isDigit c then Some NExp else None
  | NExp => if isDigit c then Some NExp else None
  end.

(** What the scanner does with [c] where a token may begin: the tokens it
    completes and the state it enters. *)
Definition lex_start (c : ascii) : option (list token * lexState) :=
  if isJSONSpace c then Some ([], LStart)
  else if is_byte 123 c then Some ([TLBrace], LStart)
  else if is_byte 125 c then Some ([TRBrace], LStart)
  else if is_byte 91 c then Some ([TLBracket], LStart)
  else if is_byte 93 c then Some ([TRBracket], LStart)
  else if is_byte 44 c then Some ([TComma], LStart)
  else if is_byte 58 c then Some ([TColon], LStart)
  else if is_byte 34 c then Some ([], LStr EmptyString)
  else if is_byte 45 c then Some ([], LNum (String c EmptyString) NNeg)
  else if is_byte 48 c then Some ([], LNum (String c EmptyString) NZero)
  else if in_range 49 57 c then Some ([], LNum (String c EmptyString) NInt)
  else if is_byte 116 c then Some ([], LLit "rue" TTrue)
  else if is_byte 102 c then Some ([], LLit "alse" TFalse)
  else if is_byte 110 c then Some ([], LLit "ull" TNull)
  else None.

Definition isEscapeChar (c : ascii) : bool :=
  is_byte 98 c || is_byte 102 c || is_byte 110 c || is_byte 114 c
  || is_byte 116 c || is_byte 92 c || is_byte 47 c || is_byte 34 c.

(** The tokens of a JSON text, [None] on a byte the grammar does not allow.
    A string token holds the bytes between its quotes, escapes included. *)
Fixpoint lex (st : lexState) (s : string) : option (list token) :=
  match s with
  | EmptyString =>
      match st with
      | LStart => Some []
      | LNum lit n => if num_accepting n then Some [TNumber lit] else None
      | _ => None
      end
  | String c r =>
      match st with
      | LStart =>
          '(ts, st') ← lex_start c; (ts ++.) <$> lex st' r
      | LStr raw =>
          if is_byte 34 c then (TString raw ::.) <$> lex LStart r
          else if is_byte 92 c then lex (LEsc (snoc raw c)) r
          else if (byte_val c <? 32)%N then None
          else lex (LStr (snoc raw c)) r
      | LEsc raw =>
          if isEscapeChar c then lex (LStr (snoc raw c)) r
          else if is_byte 117 c then lex (LHex (snoc raw c) 4) r
          else None
      | LHex raw more =>
          if isHex c
          then match more with
               | 0%nat | 1%nat => lex (LStr (snoc raw c)) r
               | S more' => lex (LHex (snoc raw c) more') r
               end
          else None
      | LNum lit n =>
          match num_step n c with
          | Some n' => lex (LNum (snoc lit c) n') r
          | None =>
              if num_accepting n
              then '(ts, st') ← lex_start c;
                   ((TNumber lit :: ts) ++.) <$> lex st' r
              else None
          end
      | LLit rest t =>
          match rest with
          | String e EmptyString =>
              if Ascii.eqb c e then (t ::.) <$> lex LStart r else None
          | String e rest' =>
              if Ascii.eqb c e then lex (LLit rest' t) r else None
          | EmptyString => None
          end
      end
  end.

(** *** Unquoting a string literal *)

Definition hexval (c : ascii) : N :=
  if isDigit c then byte_val c - 48
  else if in_range 97 102 c then byte_val c - 87
  else byte_val c - 55.

Definition hex4 (a b c d : ascii) : N :=
  ((hexval a * 16 + hexval b) * 16 + hexval c) * 16 + hexval d.

Definition isHex4 (a b c d : ascii) : bool :=
  isHex a && isHex b && isHex c && isHex d.

Definition byte_of (n : N) : ascii := ascii_of_N n.

(** [utf8.EncodeRune] for a rune that is no surrogate and at most
    U+10FFFF. *)
Definition EncodeRune (r : N) : string :=
  if (r <? 128)%N then String (byte_of r) EmptyString
  else if (r <? 2048)%N then
    String (byte_of (192 + r / 64))
      (String (byte_of (128 + r mod 64)) EmptyString)
  else if (r <? 65536)%N then
    String (byte_of (224 + r / 4096))
      (String (byte_of (128 + (r / 64) mod 64))
         (String (byte_of (128 + r mod 64)) EmptyString))
  else
    String (byte_of (240 + r / 262144))
      (String (byte_of (128 + (r / 4096) mod 64))
         (String (byte_of (128 + (r / 64) mod 64))
            (String (byte_of (128 + r mod 64)) EmptyString))).

(** [unicode.ReplacementChar], U+FFFD. *)
Definition ReplacementChar : N := 65533.

Definition isSurrogate (r : N) : bool := (55296 <=? r)%N && (r <? 57344)%N.

(** [utf16.DecodeRune]. *)
Definition utf16_DecodeRune (r1 r2 : N) : N :=
  if (55296 <=? r1)%N && (r1 <? 56320)%N && (56320 <=? r2)%N && (r2 <? 57344)%N
  then (r1 - 55296) * 1024 + (r2 - 56320) + 65536
  else ReplacementChar.

Definition isCont (c : ascii) : bool := in_range 128 191 c.

(** The length of the UTF-8 sequence that begins with [c0] and goes on with
    [r], 0 when [utf8.DecodeRune] would answer [RuneError]. *)
Definition utf8_seq_len (c0 : ascii) (r : string) : nat :=
  let second_ok (c1 : ascii) : bool :=
    if is_byte 224 c0 then in_range 160 191 c1
    else if is_byte 237 c0 then in_range 128 159 c1
    else if is_byte 240 c0 then in_range 144 191 c1
    else if is_byte 244 c0 then in_range 128 143 c1
    else isCont c1 in
  if in_range 194 223 c0 then
    match r with
    | String c1 _ => if second_ok c1 then 2%nat else 0%nat
    | _ => 0%nat
    end
  else if in_range 224 239 c0 then
    match r with
    | String c1 (String c2 _) =>
        if second_ok c1 && isCont c2 then 3%nat else 0%nat
    | _ => 0%nat
    end
  else if in_range 240 244 c0 then
    match r with
    | String c1 (String c2 (String c3 _)) =>
        if second_ok c1 && isCont c2 && isCont c3 then 4%nat else 0%nat
    | _ => 0%nat
    end
  else 0%nat.

Definition unescape (c : ascii) : ascii :=
  if is_byte 98 c then "008"%char
  else if is_byte 102 c then "012"%char
  else if is_byte 110 c then "010"%char
  else if is_byte 114 c then "013"%char
  else if is_byte 116 c then "009"%char
  else c.

(** [unquote] of a literal the scanner has accepted.  [copy] counts the
    continuation bytes of a valid UTF-8 sequence still to be copied.  A byte
    that begins no valid sequence and a surrogate that has no partner
    become U+FFFD. *)
Fixpoint unquote_from (copy : nat) (raw : string) : string :=
  match raw with
  | EmptyString => EmptyString
  | String c r =>
      match copy with
      | S copy' => String c (unquote_from copy' r)
      | O =>
          if is_byte 92 c then
            match r with
            | String e r1 =>
                if is_byte 117 e then
                  match r1 with
                  | String h1 (String h2 (String h3 (String h4 r2))) =>
                      let rr := hex4 h1 h2 h3 h4 in
                      if isSurrogate rr then
                        match r2 with
                        | String b (String u (String g1 (String g2
                            (String g3 (String g4 r3))))) =>
                            if is_byte 92 b && is_byte 117 u
                               && isHex4 g1 g2 g3 g4
                               && negb (utf16_DecodeRune rr (hex4 g1 g2 g3 g4)
                                        =? ReplacementChar)%N
                            then EncodeRune
                                   (utf16_DecodeRune rr (hex4 g1 g2 g3 g4))
                                 +:+ unquote_from 0 r3
                            else EncodeRune ReplacementChar
                                 +:+ unquote_from 0 r2
                        | _ => EncodeRune ReplacementChar +:+ unquote_from 0 r2
                        end
                      else EncodeRune rr +:+ unquote_from 0 r2
                  | _ => EmptyString
                  end
                else String (unescape e) (unquote_from 0 r1)
            | EmptyString => EmptyString
            end
          else if (byte_val c <? 128)%N then String c (unquote_from 0 r)
          else
            match utf8_seq_len c r with
            | O => EncodeRune ReplacementChar +:+ unquote_from 0 r
            | S n => String c (unquote_from n r)
            end
      end
  end.

Definition unquote (raw : string) : string := unquote_from 0 raw.

(** *** The parser *)

(** An open array with the items read so far (last first), an open object
    with its members (last first), and the key whose value is being read. *)
Inductive frame : Type :=
  | FArr (items : list json)
  | FObj (members : list (string * json))
  | FKey (key : string).

Inductive parseState : Type :=
  | PValue (stk : list frame)
  | PFirstItem (stk : list frame)
  | PFirstKey (stk : list frame)
  | PKey (stk : list frame)
  | PColon (stk : list frame)
  | PAfter (stk : list frame)
  | PEnd (v : json).

Definition maxNestingDepth : N := 10000.

Definition isContainer (f : frame) : bool :=
  match f with FKey _ => false | _ => true end.

Definition depth (stk : list frame) : N :=
  N.of_nat (length (List.filter isContainer stk)).

(** A complete value goes to the container that waits for it. *)
Definition deliver (v : json) (stk : list frame) : option parseState :=
  match stk with
  | [] => Some (PEnd v)
  | FArr items :: stk' => Some (PAfter (FArr (v :: items) :: stk'))
  | FKey k :: FObj ms :: stk' => Some (PAfter (FObj ((k, v) :: ms) :: stk'))
  | _ => None
  end.

Definition open_frame (f : frame) (stk : list frame) : option (list frame) :=
  if (depth (f :: stk) <=? maxNestingDepth)%N then Some (f :: stk) else None.

Definition begin_value (t : token) (stk : list frame) : option parseState :=
  match t with
  | TLBrace => PFirstKey <$> open_frame (FObj []) stk
  | TLBracket => PFirstItem <$> open_frame (FArr []) stk
  | TString raw => deliver (JString (unquote raw)) stk
  | TNumber lit => deliver (JNumber lit) stk
  | TTrue => deliver (JBool true) stk
  | TFalse => deliver (JBool false) stk
  | TNull => deliver JNull stk
  | _ => None
  end.

Definition close_array (stk : list frame) : option parseState :=
  match stk with
  | FArr items :: stk' => deliver (JArray (rev items)) stk'
  | _ => None
  end.

Definition close_object (stk : list frame) : option parseState :=
  match stk with
  | FObj ms :: stk' => deliver (JObject (rev ms)) stk'
  | _ => None
  end.

Definition parse_step (st : parseState) (t : token) : option parseState :=
  match st with
  | PValue stk => begin_value t stk
  | PFirstItem stk =>
      match t with TRBracket => close_array stk | _ => begin_value t stk end
  | PFirstKey stk =>
      match t with
      | TRBrace => close_object stk
      | TString raw => Some (PColon (FKey (unquote raw) :: stk))
      | _ => None
      end
  | PKey stk =>
      match t with
      | TString raw => Some (PColon (FKey (unquote raw) :: stk))
      | _ => None
      end
  | PColon stk =>
      match t with TColon => Some (PValue stk) | _ => None end
  | PAfter stk =>
      match t with
      | TComma =>
          match stk with
          | FArr _ :: _ => Some (PValue stk)
          | FObj _ :: _ => Some (PKey stk)
          | _ => None
          end
      | TRBracket => close_array stk
      | TRBrace => close_object stk
      | _ => None
      end
  | PEnd _ => None
  end.

Fixpoint parse_tokens (st : parseState) (ts : list token) : option parseState :=
  match ts with
  | [] => Some st
  | t :: ts' => st' ← parse_step st t; parse_tokens st' ts'
  end.

(** The JSON text [s] as a tree; [None] is the [*json.SyntaxError] with
    which [json.Unmarshal] refuses an input before it decodes anything. *)
Definition parse (s : string) : option json :=
  ts ← lex LStart s;
  st ← parse_tokens (PValue []) ts;
  match st with PEnd v => Some v | _ => None end.

(** *** Numbers: [strconv.ParseFloat(lit, 64)] *)

Definition float64 : Type := spec_float.
Definition prec : Z := 53.
Definition emax : Z := 1024.

(** The float64 nearest to [(-1)^neg * m * 10^e10], ties to even. *)
Definition f64_of_decimal (neg : bool) (m e10 : Z) : float64 :=
  match m with
  | Zpos _ =>
      if (0 <=? e10)%Z
      then binary_normalize prec emax ((if neg then - m else m) * 10 ^ e10) 0 false
      else
        let d := (10 ^ (- e10))%Z in
        let k := (64 + Z.log2_up d)%Z in
        let n := (m * 2 ^ k)%Z in
        let q := (n / d)%Z in
        let r := (n mod d)%Z in
        let loc := if (r =? 0)%Z then loc_Exact
                   else loc_Inexact (Z.compare (2 * r) d) in
        binary_round_aux prec emax neg q (- k) loc
  | _ => S754_zero neg
  end.

(** A number literal taken apart: sign, all digits of the integer and
    fraction parts as one integer, the count of fraction digits, and the
    exponent. *)
Record decimal : Type := {
  d_neg : bool; d_mant : Z; d_frac : Z; d_eneg : bool; d_exp : Z
}.

Inductive numPart : Type := InInt | InFrac | InExp.

Fixpoint read_decimal (part : numPart) (d : decimal) (lit : string) : decimal :=
  match lit with
  | EmptyString => d
  | String c lit' =>
      let digit := Z.of_N (byte_val c - 48) in
      if isDigit c then
        match part with
        | InInt =>
            read_decimal part
              {| d_neg := d_neg d; d_mant := d_mant d * 10 + digit;
                 d_frac := d_frac d; d_eneg := d_eneg d; d_exp := d_exp d |} lit'
        | InFrac =>
            read_decimal part
              {| d_neg := d_neg d; d_mant := d_mant d * 10 + digit;
                 d_frac := d_frac d + 1; d_eneg := d_eneg d; d_exp := d_exp d |} lit'
        | InExp =>
            read_decimal part
              {| d_neg := d_neg d; d_mant := d_mant d; d_frac := d_frac d;
                 d_eneg := d_eneg d; d_exp := d_exp d * 10 + digit |} lit'
        end
      else if is_byte 46 c then read_decimal InFrac d lit'
      else if isExpChar c then read_decimal InExp d lit'
      else if is_byte 45 c then
        match part with
        | InExp =>
            read_decimal part
              {| d_neg := d_neg d; d_mant := d_mant d; d_frac := d_frac d;
                 d_eneg := true; d_exp := d_exp d |} lit'
        | _ =>
            read_decimal part
              {| d_neg := true; d_mant := d_mant d; d_frac := d_frac d;
                 d_eneg := d_eneg d; d_exp := d_exp d |} lit'
        end
      else read_decimal part d lit'
  end.

(** [ParseFloat] of a literal of the JSON grammar; [None] is the range
    error of a literal too large for a float64. *)
Definition ParseFloat (lit : string) : option float64 :=
  let d := read_decimal InInt
             {| d_neg := false; d_mant := 0; d_frac := 0;
                d_eneg := false; d_exp := 0 |} lit in
  let e10 := ((if d_eneg d then - d_exp d else d_exp d) - d_frac d)%Z in
  match f64_of_decimal (d_neg d) (d_mant d) e10 with
  | S754_infinity _ => None
  | f => Some f
  end.

(** *** Decoding into [interface{}] *)

(** What [encoding/json] stores in an [interface{}]: [nil], [bool],
    [float64], [string], [[]interface{}] and [map[string]interface{}]. *)
Inductive value : Type :=
  | VNil
  | VBool (b : bool)
  | VFloat64 (f : float64)
  | VString (s : string)
  | VSlice (items : list value)
  | VMap (m : gmap string value).

(** A later member replaces an earlier one of the same key.  A number out
    of range makes the whole [Unmarshal] return an error. *)
Fixpoint to_interface (j : json) : option value :=
  match j with
  | JNull => Some VNil
  | JBool b => Some (VBool b)
  | JNumber lit => VFloat64 <$> ParseFloat lit
  | JString s => Some (VString s)
  | JArray items => VSlice <$> mapM to_interface items
  | JObject members =>
      VMap <$>
        (fix go (ms : list (string * json)) (acc : gmap string value)
           : option (gmap string value) :=
           match ms with
           | [] => Some acc
           | (k, x) :: ms' => v ← to_interface x; go ms' (<[k := v]> acc)
           end) members ∅
  end.

Definition members_to_map (members : list (string * json))
  : option (gmap string value) :=
  match to_interface (JObject members) with
  | Some (VMap m) => Some m
  | _ => None
  end.

(** [json.Unmarshal(data, &m)] for a nil [m] of type
    [map[string]interface{}]: [null] leaves the map nil, an object fills
    it, anything else is an [*json.UnmarshalTypeError]. *)
Definition Unmarshal_map (data : string) : option (gmap string value) :=
  j ← parse data;
  match j with
  | JNull => Some ∅
  | JObject members => members_to_map members
  | _ => None
  end.

(** *** Struct fields *)

(** [foldName] as far as it can meet an ASCII field name: letters to upper
    case, U+017F to [S] and U+212A to [K]. *)
Fixpoint foldName (s : string) : string :=
  match s with
  | EmptyString => EmptyString
  | String c r =>
      if in_range 97 122 c
      then String (byte_of (byte_val c - 32)) (foldName r)
      else match r with
           | String c2 r2 =>
               if is_byte 197 c && is_byte 191 c2
               then String "S"%char (foldName r2)
               else match r2 with
                    | String c3 r3 =>
                        if is_byte 226 c && is_byte 132 c2 && is_byte 170 c3
                        then String "K"%char (foldName r3)
                        else String c (foldName r)
                    | EmptyString => String c (foldName r)
                    end
           | EmptyString => String c (foldName r)
           end
  end.

(** The key [key] of an object names the field tagged [name]: the same
    bytes, or the same up to case. *)
Definition field_match (key name : string) : bool :=
  String.eqb key name || String.eqb (foldName key) (foldName name).

End GoJSON.

Import GoStrings GoBufio GoJSON.

(** ** [service/types.go] *)

Module OpenAIMessage.
Record t : Type := { Role : string; Content : value }.
Definition zero : t := {| Role := ""; Content := VNil |}.
End OpenAIMessage.

Module RaycastMessage.
Record ContentT : Type := { Text : string }.
Record t : Type := { Author : string; Content : ContentT }.
Definition zero : t := {| Author := ""; Content := {| Text := "" |} |}.
End RaycastMessage.

Module RaycastSSEData.
Record t : Type := { Text : string; FinishReason : string }.
Definition zero : t := {| Text := ""; FinishReason := "" |}.
End RaycastSSEData.

Module OpenAIChatResponse.
Record MessageT : Type := {
  Role : string; Content : string;
  Refusal : option string; Annotations : list string
}.
Record ChoiceT : Type := {
  Index : Z; Message : MessageT;
  Logprobs : option string; FinishReason : string
}.
Record PromptTokensDetailsT : Type := { CachedTokens : Z; AudioTokens : Z }.
Record CompletionTokensDetailsT : Type := {
  ReasoningTokens : Z; CAudioTokens : Z;
  AcceptedPredictionTokens : Z; RejectedPredictionTokens : Z
}.
Record UsageT : Type := {
  PromptTokens : Z; CompletionTokens : Z; TotalTokens : Z;
  PromptTokensDetails : PromptTokensDetailsT;
  CompletionTokensDetails : CompletionTokensDetailsT
}.
Record t : Type := {
  ID : string; Object : string; Created : Z; Model : string;
  Choices : list ChoiceT; Usage : UsageT;
  ServiceTier : string; SystemFingerprint : string
}.
End OpenAIChatResponse.

(** The error document of the handlers.  Its declaration is in another file
    of the package; the three fields are those of the struct literals in
    [utls.go] and [handlers.go]. *)
Module ErrorResponse.
Record t : Type := { Message : string; Type_ : string; Details : string }.
End ErrorResponse.

(** A string field takes a JSON string, is left alone by [null], and makes
    [Unmarshal] fail on anything else. *)
Definition store_string (x : json) (old : string) : option string :=
  match x with
  | JString s => Some s
  | JNull => Some old
  | _ => None
  end.

(** One member of the object goes to the field its key names, or nowhere.
    [Unmarshal] goes on after a field of the wrong type and returns the error
    in the end: [ok] records that none occurred. *)
Definition RaycastSSEData_member (st : RaycastSSEData.t * bool)
    (member : string * json) : RaycastSSEData.t * bool :=
  let '(d, ok) := st in
  let '(key, x) := member in
  if field_match key "text" then
    match store_string x (RaycastSSEData.Text d) with
    | Some s =>
        ({| RaycastSSEData.Text := s;
            RaycastSSEData.FinishReason := RaycastSSEData.FinishReason d |}, ok)
    | None => (d, false)
    end
  else if field_match key "finish_reason" then
    match store_string x (RaycastSSEData.FinishReason d) with
    | Some s =>
        ({| RaycastSSEData.Text := RaycastSSEData.Text d;
            RaycastSSEData.FinishReason := s |}, ok)
    | None => (d, false)
    end
  else (d, ok).

(** [json.Unmarshal([]byte(data), &jsonData)] for a zero
    [jsonData RaycastSSEData]: [None] when it returns an error.  Members whose
    key names no field are skipped. *)
Definition Unmarshal_RaycastSSEData (data : string) : option RaycastSSEData.t :=
  j ← parse data;
  match j with
  | JNull => Some RaycastSSEData.zero
  | JObject members =>
      let '(d, ok) := foldl RaycastSSEData_member (RaycastSSEData.zero, true) members in
      if ok then Some d else None
  | _ => None
  end.

(** ** [service/utls.go] *)

(** *** [convertMessages] *)

(** The [switch] on the dynamic type of [msg.Content] ([utls.go], lines
    39 to 54).  [partMap["type"] == "text"] holds when the entry is the
    string ["text"]. *)
Definition contentText (content : value) : string :=
  match content with
  | VString content => content
  | VSlice content =>
      foldl (fun contentText part =>
               match part with
               | VMap partMap =>
                   match partMap !! "type" with
                   | Some (VString "text") =>
                       match partMap !! "text" with
                       | Some (VString textValue) => contentText +:+ textValue
                       | _ => contentText
                       end
                   | _ => contentText
                   end
               | _ => contentText
               end) "" content
  | _ => ""
  end.

(** The body of the loop over the messages (lines 34 to 63). *)
Definition convertMessage (msg : OpenAIMessage.t) : RaycastMessage.t :=
  let author :=
    if String.eqb (OpenAIMessage.Role msg) "assistant" then "assistant" else "user" in
  {| RaycastMessage.Author := author;
     RaycastMessage.Content :=
       {| RaycastMessage.Text := contentText (OpenAIMessage.Content msg) |} |}.

(** The slice is made with the length of the input and filled index by
    index (lines 31 to 66). *)
Definition convertMessages (openaiMessages : list OpenAIMessage.t)
  : list RaycastMessage.t :=
  let raycastMessages := replicate (length openaiMessages) RaycastMessage.zero in
  foldl (fun raycastMessages im => <[im.1 := convertMessage im.2]> raycastMessages)
    raycastMessages (imap pair openaiMessages).

(** *** [parseSSEResponse] *)

Definition nonEmptyString (x : option value) : option string :=
  match x with
  | Some (VString s) => if String.eqb s "" then None else Some s
  | _ => None
  end.

(** The search of the generic object after the standard parse has failed
    (lines 112 to 136). *)
Definition genericFragment (genericData : gmap string value) : option string :=
  match nonEmptyString (genericData !! "text") with
  | Some text => Some text
  | None =>
      match nonEmptyString (genericData !! "content") with
      | Some content => Some content
      | None =>
          match genericData !! "message" with
          | Some (VMap message) => nonEmptyString (message !! "content")
          | _ => None
          end
      end
  end.

(** What one [data:] payload adds to [fullText] (lines 94 to 145):
    [Some text] where the code does [fullText += text], [None] where it goes
    on without.  The generic parse is tried only when the standard parse
    returns an error. *)
Definition extractFragment (data : string) : option string :=
  if String.eqb data "[DONE]" then None
  else
    match Unmarshal_RaycastSSEData data with
    | None =>
        match Unmarshal_map data with
        | None => None
        | Some genericData => genericFragment genericData
        end
    | Some jsonData =>
        if String.eqb (RaycastSSEData.Text jsonData) "" then None
        else Some (RaycastSSEData.Text jsonData)
    end.

(** The body of the [for scanner.Scan()] loop (lines 83 to 149). *)
Definition scanLine (fullText line : string) : string :=
  if String.eqb line "" then fullText
  else if HasPrefix line "data:" then
    let data := TrimSpace (TrimPrefix line "data:") in
    match extractFragment data with
    | Some text => fullText +:+ text
    | None => fullText
    end
  else fullText.

(** The return value (lines 69 to 182).  The block after the loop that
    matches a regular expression against the response only logs. *)
Definition parseSSEResponse (responseText : string) : string :=
  if String.eqb (TrimSpace responseText) "" then ""
  else foldl scanLine "" (Scanner_lines responseText).

(** *** The outside world of a handler *)

(** [uuid.New().String()] and [time.Now().Unix()] at their successive calls. *)
Record World : Type := {
  uuid_New_String : nat -> string;
  time_Now_Unix : nat -> Z
}.

Module Chunk.
Record DeltaT : Type := { Content : string }.
Record ChoiceT : Type := { Index : Z; Delta : DeltaT; FinishReason : string }.
Record t : Type := {
  ID : string; Object : string; Created : Z; Model : string;
  Choices : list ChoiceT
}.
End Chunk.

(** What reaches the client: [ChunkEvent chunk] is the write of
    ["data: %s\n\n"] with the JSON of [chunk], [DoneEvent] the write of
    ["data: [DONE]\n\n"], [FlushEvent] a call of [flusher.Flush()]. *)
Inductive Event : Type :=
  | ChunkEvent (chunk : Chunk.t)
  | DoneEvent
  | FlushEvent.

(** The calls made so far and the events written so far, in order. *)
Record Conn : Type := {
  uuid_calls : nat;
  time_calls : nat;
  written : list Event
}.

Definition Conn_start : Conn := {| uuid_calls := 0; time_calls := 0; written := [] |}.

Definition emit (evs : list Event) (c : Conn) : Conn :=
  {| uuid_calls := uuid_calls c; time_calls := time_calls c;
     written := written c ++ evs |}.

(** *** [handleStreamingResponse] *)

Section Streaming.
Variable w : World.
Variable modelId : string.

(** The chunk made for a parsed event (lines 233 to 267); the identifier
    and the time are drawn while the chunk literal is built. *)
Definition makeChunk (c : Conn) (jsonData : RaycastSSEData.t) : Chunk.t :=
  {| Chunk.ID := "chatcmpl-" +:+ uuid_New_String w (uuid_calls c);
     Chunk.Object := "chat.completion.chunk";
     Chunk.Created := time_Now_Unix w (time_calls c);
     Chunk.Model := modelId;
     Chunk.Choices :=
       [ {| Chunk.Index := 0;
            Chunk.Delta := {| Chunk.Content := RaycastSSEData.Text jsonData |};
            Chunk.FinishReason := RaycastSSEData.FinishReason jsonData |} ] |}.

(** The body of [for _, l := range lines] (lines 219 to 279).
    [json.Marshal] cannot fail on a chunk, so the chunk is written. *)
Definition dispatchLine (c : Conn) (l : string) : Conn :=
  if String.eqb (TrimSpace l) "" then c
  else if HasPrefix l "data:" then
    let data := TrimSpace (TrimPrefix l "data:") in
    match Unmarshal_RaycastSSEData data with
    | None => c
    | Some jsonData =>
        {| uuid_calls := S (uuid_calls c);
           time_calls := S (time_calls c);
           written := written c ++ [ChunkEvent (makeChunk c jsonData); FlushEvent] |}
    end
  else c.

(** The body of the read loop after a successful [ReadString] (lines 212 to
    280): the state is the buffer and the connection. *)
Definition readStep (st : string * Conn) (line : string) : string * Conn :=
  let '(buffer, c) := st in
  let buffer := buffer +:+ line in
  if HasSuffix buffer (String LF (String LF EmptyString))
  then (EmptyString, foldl dispatchLine c (Split_LF buffer))
  else (buffer, c).

(** Lines 185 to 286.  [body] is what the backend delivers before the end
    of the stream or a read error; both leave the loop.  The headers and the
    status are set before the loop, and gin's writer always is a
    [http.Flusher]. *)
Definition handleStreamingResponse (c : Conn) (body : string) : Conn :=
  let '(_, c) := foldl readStep (EmptyString, c) (ReadString_lines body) in
  emit [DoneEvent; FlushEvent] c.

End Streaming.

(** *** [extractTextFromJSON] *)

(** Lines 435 to 475.  [fromChoices] is what the block on [choices] returns,
    [None] when the function goes on to the next pattern. *)
Definition extractTextFromJSON (jsonData : gmap string value) : string :=
  match nonEmptyString (jsonData !! "content") with
  | Some content => content
  | None =>
      let fromChoices : option string :=
        match jsonData !! "choices" with
        | Some (VSlice (VMap choice :: _)) =>
            let fromMessage :=
              match choice !! "message" with
              | Some (VMap message) => nonEmptyString (message !! "content")
              | _ => None
              end in
            match fromMessage with
            | Some content => Some content
            | None =>
                match choice !! "delta" with
                | Some (VMap delta) => nonEmptyString (delta !! "content")
                | _ => None
                end
            end
        | _ => None
        end in
      match fromChoices with
      | Some content => content
      | None =>
          match nonEmptyString (jsonData !! "text") with
          | Some text => text
          | None =>
              match nonEmptyString (jsonData !! "completion") with
              | Some completion => completion
              | None => ""
              end
          end
      end
  end.

(** *** [handleNonStreamingResponse] *)

(** The outcome of [io.ReadAll(response.Body)]. *)
Inductive ReadResult : Type :=
  | ReadOK (bodyBytes : string)
  | ReadErr (err : string).

(** What the handler answers: an error document with its status, or the
    response document. *)
Inductive Reply : Type :=
  | ReplyError (status : Z) (e : ErrorResponse.t)
  | ReplyDocument (doc : OpenAIChatResponse.t).

Definition placeholderText : string :=
  "抱歉，无法提取响应内容。请尝试重新发送请求或联系管理员检查服务器日志。".

(** The text of the answer, from the body read (lines 310 to 334). *)
Definition resolveFullText (responseText : string) : string :=
  let fullText := parseSSEResponse responseText in
  if String.eqb fullText "" then
    let fullText :=
      match Unmarshal_map responseText with
      | Some directJsonResponse =>
          let extractedText := extractTextFromJSON directJsonResponse in
          if String.eqb extractedText "" then fullText else extractedText
      | None => fullText
      end in
    if String.eqb fullText "" then placeholderText else fullText
  else fullText.

(** Lines 289 to 432.  [json.MarshalIndent] cannot fail on a document of
    strings and integers, so its error branch gives no case. *)
Definition handleNonStreamingResponse (w : World) (c : Conn)
    (read : ReadResult) (modelId : string) : Reply :=
  match read with
  | ReadErr err =>
      ReplyError 500
        {| ErrorResponse.Message := "Error reading response body";
           ErrorResponse.Type_ := "server_error";
           ErrorResponse.Details := err |}
  | ReadOK bodyBytes =>
      let fullText := resolveFullText bodyBytes in
      ReplyDocument
        {| OpenAIChatResponse.ID := "chatcmpl-" +:+ uuid_New_String w (uuid_calls c);
           OpenAIChatResponse.Object := "chat.completion";
           OpenAIChatResponse.Created := time_Now_Unix w (time_calls c);
           OpenAIChatResponse.Model := modelId;
           OpenAIChatResponse.Choices :=
             [ {| OpenAIChatResponse.Index := 0;
                  OpenAIChatResponse.Message :=
                    {| OpenAIChatResponse.Role := "assistant";
                       OpenAIChatResponse.Content := fullText;
                       OpenAIChatResponse.Refusal := None;
                       OpenAIChatResponse.Annotations := [] |};
                  OpenAIChatResponse.Logprobs := None;
                  OpenAIChatResponse.FinishReason := "length" |} ];
           OpenAIChatResponse.Usage :=
             {| OpenAIChatResponse.PromptTokens := 10;
                OpenAIChatResponse.CompletionTokens := 10;
                OpenAIChatResponse.TotalTokens := 20;
                OpenAIChatResponse.PromptTokensDetails :=
                  {| OpenAIChatResponse.CachedTokens := 0;
                     OpenAIChatResponse.AudioTokens := 0 |};
                OpenAIChatResponse.CompletionTokensDetails :=
                  {| OpenAIChatResponse.ReasoningTokens := 0;
                     OpenAIChatResponse.CAudioTokens := 0;
                     OpenAIChatResponse.AcceptedPredictionTokens := 0;
                     OpenAIChatResponse.RejectedPredictionTokens := 0 |} |};
           OpenAIChatResponse.ServiceTier := "default";
           OpenAIChatResponse.SystemFingerprint := "fp_b376dfbbd5" |}
  end.

(** ** [service/types.go]: the requests *)

Module RaycastChatRequest.
Record ToolT : Type := { Name : string; Type_ : string }.
Record t : Type := {
  AdditionalSystemInstructions : string;
  Debug : bool;
  Locale : string;
  Messages : list RaycastMessage.t;
  Model : string;
  Provider : string;
  Source : string;
  SystemInstruction : string;
  Temperature : float64;
  ThreadID : string;
  Tools : list ToolT
}.
End RaycastChatRequest.

Module OpenAIChatRequest.
Record t : Type := {
  Messages : list OpenAIMessage.t;
  Model : string;
  Temperature : float64;
  Stream : bool;
  System : string;
  MaxTokens : Z;
  TopP : float64;
  FrequencyPenalty : float64;
  PresencePenalty : float64;
  Extra : gmap string value
}.
End OpenAIChatRequest.

Definition f64_zero : float64 := S754_zero false.

(** The constant [0.5]. *)
Definition f64_half : float64 := S754_finite false 4503599627370496 (-53).

(** [x == y] on float64. *)
Definition f64_eqb (x y : float64) : bool := SFeqb x y.

(** The members of a map in the order in which [json.Marshal] writes them:
    by key, bytewise. *)
Definition sorted_members (m : gmap string value) : list (string * value) :=
  merge_sort (fun a b => String.le a.1 b.1) (map_to_list m).

Definition OpenAIMessage_member (st : OpenAIMessage.t * bool)
    (member : string * value) : OpenAIMessage.t * bool :=
  let '(msg, ok) := st in
  let '(key, x) := member in
  if field_match key "role" then
    match x with
    | VString s =>
        ({| OpenAIMessage.Role := s;
            OpenAIMessage.Content := OpenAIMessage.Content msg |}, ok)
    | VNil => (msg, ok)
    | _ => (msg, false)
    end
  else if field_match key "content" then
    ({| OpenAIMessage.Role := OpenAIMessage.Role msg;
        OpenAIMessage.Content := x |}, ok)
  else (msg, ok).

(** An element of the [messages] array, decoded from the JSON that
    [json.Marshal] has written for it. *)
Definition OpenAIMessage_of_value (x : value) : option OpenAIMessage.t :=
  match x with
  | VNil => Some OpenAIMessage.zero
  | VMap m =>
      let '(msg, ok) :=
        foldl OpenAIMessage_member (OpenAIMessage.zero, true) (sorted_members m) in
      if ok then Some msg else None
  | _ => None
  end.

(** [json.Marshal(v)] followed by [json.Unmarshal(messages, &m)] for
    [m []OpenAIMessage]: [null] gives the nil slice. *)
Definition OpenAIMessages_of_value (v : value) : option (list OpenAIMessage.t) :=
  match v with
  | VNil => Some []
  | VSlice items => mapM OpenAIMessage_of_value items
  | _ => None
  end.

(** The pattern of [UnmarshalJSON] for a known field:
    [if v, ok := rawMap[k].(T); ok { r.F = v; delete(rawMap, k) }].  The
    first component is the value assigned, [None] when the field keeps its
    zero value; the second is the map that goes on. *)
Definition take_string (k : string) (rawMap : gmap string value)
  : option string * gmap string value :=
  match rawMap !! k with
  | Some (VString v) => (Some v, delete k rawMap)
  | _ => (None, rawMap)
  end.

Definition take_float64 (k : string) (rawMap : gmap string value)
  : option float64 * gmap string value :=
  match rawMap !! k with
  | Some (VFloat64 v) => (Some v, delete k rawMap)
  | _ => (None, rawMap)
  end.

Definition take_bool (k : string) (rawMap : gmap string value)
  : option bool * gmap string value :=
  match rawMap !! k with
  | Some (VBool v) => (Some v, delete k rawMap)
  | _ => (None, rawMap)
  end.

(** The [messages] field, whatever its type: it is marshalled again and
    decoded as [[]OpenAIMessage]; an error there is the error of
    [UnmarshalJSON]. *)
Definition take_messages (rawMap : gmap string value)
  : option (list OpenAIMessage.t * gmap string value) :=
  match rawMap !! "messages" with
  | Some v => m ← OpenAIMessages_of_value v; Some (m, delete "messages" rawMap)
  | None => Some ([], rawMap)
  end.

(** ** [service/handlers.go]: the request sent upstream *)

(** The body that goes upstream: the fields of the request and, when
    [max_tokens] was given, that field merged into the marshalled object. *)
Record RequestBody : Type := {
  request : RaycastChatRequest.t;
  max_tokens : option Z
}.

Inductive Prepared : Type :=
  | Rejected (status : Z) (e : ErrorResponse.t)
  | Upstream (requestBody : RequestBody) (stream : bool) (model : string).

Section Handlers.
(** Declared in other files of the package: the default model, the cached
    model table with its lookup, the text of a binding error, and the
    conversion [int(v)] of a float64 that no [int] represents, which Go
    leaves to the implementation. *)
Variable DefaultModel : string.
Variable Models : Type.
Variable getProviderInfo : string -> Models -> string * string.
Variable bindErrorText : string -> string.
Variable int_unrepresentable : float64 -> Z.

(** [int(v)]: truncation toward zero. *)
Definition int_of_float64 (v : float64) : Z :=
  match v with
  | S754_zero _ => 0
  | S754_finite s m e =>
      let a := if (0 <=? e)%Z then (Z.pos m * 2 ^ e)%Z
               else (Z.pos m / 2 ^ (- e))%Z in
      let z := if s then (- a)%Z else a in
      if ((- 2 ^ 63 <=? z) && (z <? 2 ^ 63))%Z then z
      else int_unrepresentable v
  | _ => int_unrepresentable v
  end.

(** [(r *OpenAIChatRequest) UnmarshalJSON(data)] on a zero [r]
    ([types.go], lines 66 to 137). *)
Definition UnmarshalJSON (data : string) : option OpenAIChatRequest.t :=
  rawMap ← Unmarshal_map data;
  '(Messages, rawMap) ← take_messages rawMap;
  let '(Model, rawMap) := take_string "model" rawMap in
  let '(Temperature, rawMap) := take_float64 "temperature" rawMap in
  let '(Stream, rawMap) := take_bool "stream" rawMap in
  let '(System, rawMap) := take_string "system" rawMap in
  let Extra : gmap string value :=
    match System with
    | Some v => <["system" := VString v]> ∅
    | None => ∅
    end in
  let '(MaxTokens, rawMap) := take_float64 "max_tokens" rawMap in
  let '(TopP, rawMap) := take_float64 "top_p" rawMap in
  let '(FrequencyPenalty, rawMap) := take_float64 "frequency_penalty" rawMap in
  let '(PresencePenalty, rawMap) := take_float64 "presence_penalty" rawMap in
  Some {| OpenAIChatRequest.Messages := Messages;
          OpenAIChatRequest.Model := default "" Model;
          OpenAIChatRequest.Temperature := default f64_zero Temperature;
          OpenAIChatRequest.Stream := default false Stream;
          OpenAIChatRequest.System := default "" System;
          OpenAIChatRequest.MaxTokens := default 0%Z (int_of_float64 <$> MaxTokens);
          OpenAIChatRequest.TopP := default f64_zero TopP;
          OpenAIChatRequest.FrequencyPenalty := default f64_zero FrequencyPenalty;
          OpenAIChatRequest.PresencePenalty := default f64_zero PresencePenalty;
          OpenAIChatRequest.Extra := rawMap ∪ Extra |}.

(** [handleChatCompletions] from the binding of the body to the request it
    sends ([handlers.go], lines 220 to 339): [data] is the JSON that
    [c.ShouldBindJSON(&body)] hands to [UnmarshalJSON], [models] what the
    cache answers, and the thread identifier is the next draw of
    [uuid.New()]. *)
Definition handleChatCompletions (w : World) (c : Conn) (models : Models)
    (data : string) : Prepared :=
  match UnmarshalJSON data with
  | None =>
      Rejected 400
        {| ErrorResponse.Message := "Invalid request body";
           ErrorResponse.Type_ := "invalid_request_error";
           ErrorResponse.Details := bindErrorText data |}
  | Some body =>
      if (length (OpenAIChatRequest.Messages body) =? 0)%nat then
        Rejected 400
          {| ErrorResponse.Message := "Missing or invalid 'messages' field";
             ErrorResponse.Type_ := "invalid_request_error";
             ErrorResponse.Details := "" |}
      else
        let model :=
          if String.eqb (OpenAIChatRequest.Model body) "" then DefaultModel
          else OpenAIChatRequest.Model body in
        let temperature :=
          if f64_eqb (OpenAIChatRequest.Temperature body) f64_zero then f64_half
          else OpenAIChatRequest.Temperature body in
        let stream := OpenAIChatRequest.Stream body in
        let '(provider, modelName) := getProviderInfo model models in
        let threadId := uuid_New_String w (uuid_calls c) in
        let systemPrompt :=
          match nonEmptyString (OpenAIChatRequest.Extra body !! "system") with
          | Some sysPrompt => sysPrompt
          | None => "markdown"
          end in
        let raycastRequest :=
          {| RaycastChatRequest.AdditionalSystemInstructions := "";
             RaycastChatRequest.Debug := false;
             RaycastChatRequest.Locale := "en-US";
             RaycastChatRequest.Messages :=
               convertMessages (OpenAIChatRequest.Messages body);
             RaycastChatRequest.Model := modelName;
             RaycastChatRequest.Provider := provider;
             RaycastChatRequest.Source := "ai_chat";
             RaycastChatRequest.SystemInstruction := systemPrompt;
             RaycastChatRequest.Temperature := temperature;
             RaycastChatRequest.ThreadID := threadId;
             RaycastChatRequest.Tools := [] |} in
        let requestBody :=
          if (0 <? OpenAIChatRequest.MaxTokens body)%Z
          then {| request := raycastRequest;
                  max_tokens := Some (OpenAIChatRequest.MaxTokens body) |}
          else {| request := raycastRequest; max_tokens := None |} in
        Upstream requestBody stream model
  end.

End Handlers.

(** ** [service/handlers.go]: the model listing *)

(** An entry of the model cache.  The type is declared in another file of
    the package; [handleModels] reads the fields [Model] and [Provider]. *)
Module ModelInfo.
Record t : Type := { Model : string; Provider : string }.
End ModelInfo.

Module ModelEntry.
Record t : Type := { ID : string; Object : string; Created : Z; OwnedBy : string }.
End ModelEntry.

(** [Data] is a Go slice: [None] is the nil slice, which [json.MarshalIndent]
    writes as [null]. *)
Module OpenAIModelResponse.
Record t : Type := { Object : string; Data : option (list ModelEntry.t) }.
End OpenAIModelResponse.

Inductive ModelsReply : Type :=
  | ModelsError (status : Z) (e : ErrorResponse.t)
  | ModelsDocument (doc : OpenAIModelResponse.t).

(** The entry appended for the [i]-th model that the [range] yields; the
    time is read once per entry. *)
Definition modelEntry (w : World) (c : Conn) (i : nat) (info : ModelInfo.t)
  : ModelEntry.t :=
  {| ModelEntry.ID := ModelInfo.Model info;
     ModelEntry.Object := "model";
     ModelEntry.Created := time_Now_Unix w (time_calls c + i);
     ModelEntry.OwnedBy := ModelInfo.Provider info |}.

(** [sort.Slice] with [modelSlice[i].ID < modelSlice[j].ID], strings being
    compared bytewise.  [sort.Slice] promises no order among entries of equal
    identifier; the merge sort taken here keeps theirs. *)
Definition sort_by_ID (modelSlice : list ModelEntry.t) : list ModelEntry.t :=
  merge_sort (fun a b => String.le (ModelEntry.ID a) (ModelEntry.ID b)) modelSlice.

(** [handleModels] ([handlers.go], lines 418 to 491).  [cache] is what
    [config.ModelCache.GetModels(config)] returns: the text of the error, or
    the models in the order in which the [range] yields them.  The slice
    stays nil when there is no model. *)
Definition handleModels (w : World) (c : Conn) (cache : string + list ModelInfo.t)
  : ModelsReply :=
  match cache with
  | inl err =>
      ModelsError 500
        {| ErrorResponse.Message := "An error occurred while fetching models: " +:+ err;
           ErrorResponse.Type_ := "relay_error";
           ErrorResponse.Details := err |}
  | inr models =>
      let modelSlice :=
        match models with
        | [] => None
        | _ => Some (sort_by_ID (imap (modelEntry w c) models))
        end in
      ModelsDocument
        {| OpenAIModelResponse.Object := "list";
           OpenAIModelResponse.Data := modelSlice |}
  end.

(** ** Notions of the specification *)

(** The first candidate that is a non-empty string, the empty string when
    there is none. *)
Fixpoint spec_first_nonempty (candidates : list (option string)) : string :=
  match candidates with
  | [] => ""
  | Some s :: rest => if decide (s = "") then spec_first_nonempty rest else s
  | None :: rest => spec_first_nonempty rest
  end.

(** The field [k] of an object when it holds a string. *)
Definition spec_string_field (m : gmap string value) (k : string) : option string :=
  match m !! k with
  | Some (VString s) => Some s
  | _ => None
  end.

(** The field [k] of an object when it holds an object. *)
Definition spec_object_field (m : gmap string value) (k : string)
  : option (gmap string value) :=
  match m !! k with
  | Some (VMap o) => Some o
  | _ => None
  end.

(** [choices[0]] when [choices] is an array whose first element is an
    object. *)
Definition spec_first_choice (m : gmap string value) : option (gmap string value) :=
  match m !! "choices" with
  | Some (VSlice (VMap choice :: _)) => Some choice
  | _ => None
  end.

(** The extended field-search order of the whole-body fallback. *)
Definition spec_body_candidates (m : gmap string value) : list (option string) :=
  [ spec_string_field m "content";
    choice ← spec_first_choice m;
      message ← spec_object_field choice "message";
      spec_string_field message "content";
    choice ← spec_first_choice m;
      delta ← spec_object_field choice "delta";
      spec_string_field delta "content";
    spec_string_field m "text";
    spec_string_field m "completion" ].

(** The field-search order of the event fallback. *)
Definition spec_event_candidates (m : gmap string value) : list (option string) :=
  [ spec_string_field m "text";
    spec_string_field m "content";
    message ← spec_object_field m "message"; spec_string_field message "content" ].

(** The author of the backend turn made for a role. *)
Definition spec_author (role : string) : string :=
  if decide (role = "assistant") then "assistant" else "user".

(** What one typed part contributes: the value of [text] when the part is an
    object whose [type] is the string [text] and whose [text] is a string. *)
Definition spec_part_text (part : value) : string :=
  match part with
  | VMap partMap =>
      match spec_string_field partMap "type" with
      | Some ty =>
          if decide (ty = "text")
          then default "" (spec_string_field partMap "text")
          else ""
      | None => ""
      end
  | _ => ""
  end.

(** The resolved text of a content. *)
Definition spec_content_text (content : value) : string :=
  match content with
  | VString s => s
  | VSlice parts => foldr (fun part rest => spec_part_text part +:+ rest) "" parts
  | _ => ""
  end.

(** No line feed occurs in [s]. *)
Fixpoint noLF (s : string) : bool :=
  match s with
  | EmptyString => true
  | String c s' => negb (Ascii.eqb c LF) && noLF s'
  end.

(** The bytes of the line that is being read when [input] ends. *)
Fixpoint pendingLine (line : string) (input : string) : string :=
  match input with
  | EmptyString => line
  | String c input' =>
      if Ascii.eqb c LF then pendingLine EmptyString input'
      else pendingLine (line +:+ String c EmptyString) input'
  end.

Definition NL : string := String LF EmptyString.

(** An event on the wire: the [data:] line and the blank line that ends the
    group. *)
Definition sse_event (payload : string) : string :=
  "data:" +:+ payload +:+ NL +:+ NL.

(** Lines, each followed by its line feed. *)
Definition joinLines (ls : list string) : string :=
  foldr (fun l rest => l +:+ NL +:+ rest) "" ls.

(** The chunk for the event [d] when it is the [k]-th of the request. *)
Definition chunk_at (w : World) (modelId : string) (k : nat)
    (d : RaycastSSEData.t) : Chunk.t :=
  {| Chunk.ID := "chatcmpl-" +:+ uuid_New_String w k;
     Chunk.Object := "chat.completion.chunk";
     Chunk.Created := time_Now_Unix w k;
     Chunk.Model := modelId;
     Chunk.Choices :=
       [ {| Chunk.Index := 0;
            Chunk.Delta := {| Chunk.Content := RaycastSSEData.Text d |};
            Chunk.FinishReason := RaycastSSEData.FinishReason d |} ] |}.

(** The identifiers of the data chunks among the events, in order. *)
Definition chunk_ids (evs : list Event) : list string :=
  omap (fun ev => match ev with ChunkEvent ch => Some (Chunk.ID ch) | _ => None end) evs.

(** The message contents and the finish reasons of a document. *)
Definition doc_contents (doc : OpenAIChatResponse.t) : list string :=
  (fun ch => OpenAIChatResponse.Content (OpenAIChatResponse.Message ch))
    <$> OpenAIChatResponse.Choices doc.

Definition doc_finish_reasons (doc : OpenAIChatResponse.t) : list string :=
  OpenAIChatResponse.FinishReason <$> OpenAIChatResponse.Choices doc.

(** ** Sample inputs *)

(** Sample texts are written with an apostrophe for the double quote and a
    vertical bar for the line feed. *)
Fixpoint sample (s : string) : string :=
  match s with
  | EmptyString => EmptyString
  | String c s' =>
      String (if Ascii.eqb c "'" then DQUOTE
              else if Ascii.eqb c "|" then LF else c) (sample s')
  end.

Definition sample_world : World :=
  {| uuid_New_String := fun k =>
       match k with
       | 0%nat => "6f1c2a58-0d3e-4b7a-9a51-2c1e8f4d7b90"
       | 1%nat => "b84e0c17-5f2a-4d69-8e33-71a9c05d2e46"
       | _ => "0a9d3e72-c6b1-4f08-b5d4-93e7f1a26c58"
       end;
     time_Now_Unix := fun k => (1744184395 + Z.of_nat k)%Z |}.

Definition sample_two_events : string :=
  sample "data: {'text':'Hello'}||data: {'text':' there','finish_reason':'stop'}||".

Definition sample_content_payload : string := sample "{'content':'hi'}".

Definition sample_mistyped_payload : string := sample "{'text':5,'content':'hi'}".

Definition sample_request : string :=
  sample "{'messages':[{'role':'user','content':'hi'}],'model':'x','stream':false}".

Definition sample_getProviderInfo (model : string) (models : list (string * string))
  : string * string :=
  match List.find (fun e => String.eqb e.1 model) models with
  | Some e => (e.2, e.1)
  | None => ("", model)
  end.

(** ** Notions used in the proofs *)

(** A candidate counts when it is a non-empty string. *)
Definition spec_non_empty (o : option string) : option string :=
  match o with
  | Some s => if decide (s = "") then None else Some s
  | None => None
  end.

(** What the whole-body JSON fallback of [handleNonStreamingResponse] finds:
    nothing when the body is no JSON object. *)
Definition bodyFallbackText (bodyBytes : string) : string :=
  match Unmarshal_map bodyBytes with
  | Some directJsonResponse => extractTextFromJSON directJsonResponse
  | None => ""
  end.

(** The identifier of the chunk built at the [k]-th draw. *)
Definition chunk_id_at (w : World) (k : nat) : string :=
  "chatcmpl-" +:+ uuid_New_String w k.

(** The identifiers written since [c0] are the draws made since [c0]. *)
Definition ids_follow (w : World) (c0 c : Conn) : Prop :=
  uuid_calls c0 <= uuid_calls c
  /\ chunk_ids (written c)
     = chunk_ids (written c0)
       ++ (chunk_id_at w <$> seq (uuid_calls c0) (uuid_calls c - uuid_calls c0)).

(** The events written since [c0] hold no sentinel. *)
Definition no_sentinel_since (c0 c : Conn) : Prop :=
  exists evs, written c = written c0 ++ evs /\ DoneEvent ∉ evs.

(** The blank line that ends a group, seen at the end of the buffer. *)
Definition NN : string := String LF (String LF EmptyString).

(** A line that cannot complete a group, whatever the buffer holds. *)
Definition quiet (line : string) : Prop :=
  (2 <= String.length line)%nat /\ HasSuffix line NN = false.

(** ** Further notions *)

(** The events of chunks that are flushed one by one. *)
Definition chunk_events (chunks : list Chunk.t) : list Event :=
  chunks ≫= (fun chunk => [ChunkEvent chunk; FlushEvent]).

(** What every chunk of a request for [modelId] has: the object tag, the
    model name, a prefixed identifier, and one choice, of index 0. *)
Definition chunk_well_formed (modelId : string) (chunk : Chunk.t) : Prop :=
  Chunk.Object chunk = "chat.completion.chunk"
  /\ Chunk.Model chunk = modelId
  /\ HasPrefix (Chunk.ID chunk) "chatcmpl-" = true
  /\ Chunk.Index <$> Chunk.Choices chunk = [0%Z].

(** Since [c0] the handler has written well-formed chunks, each followed by
    a flush, and has drawn one identifier and read one time per chunk. *)
Definition chunks_since (modelId : string) (c0 c : Conn) : Prop :=
  exists chunks,
    written c = written c0 ++ chunk_events chunks
    /\ Forall (chunk_well_formed modelId) chunks
    /\ uuid_calls c = (uuid_calls c0 + length chunks)%nat
    /\ time_calls c = (time_calls c0 + length chunks)%nat.

(** A stream of events, one after the other. *)
Definition sse_stream (payloads : list string) : string :=
  foldr (fun payload rest => sse_event payload +:+ rest) "" payloads.

(** The events written for a sequence of events of which some parse
    ([Some d]) and some do not ([None]); [k] identifiers have been drawn
    before. *)
Fixpoint spec_stream_events (w : World) (modelId : string) (k : nat)
    (parsed : list (option RaycastSSEData.t)) : list Event :=
  match parsed with
  | [] => []
  | Some d :: parsed' =>
      ChunkEvent (chunk_at w modelId k d) :: FlushEvent
        :: spec_stream_events w modelId (S k) parsed'
  | None :: parsed' => spec_stream_events w modelId k parsed'
  end.

(** Lines that end with a carriage return and a line feed. *)
Definition CRLF : string := String CR NL.

Definition joinCRLF (ls : list string) : string :=
  foldr (fun l rest => l +:+ CRLF +:+ rest) "" ls.

(** The text that a scanned line adds to [fullText], empty when it adds
    none. *)
Definition lineText (line : string) : string :=
  if HasPrefix line "data:"
  then default "" (extractFragment (TrimSpace (TrimPrefix line "data:")))
  else "".

(** Strings one after the other. *)
Definition concatText (texts : list string) : string :=
  foldr String.append "" texts.

(** The line fits the buffer of the scanner. *)
Definition fits (line : string) : bool :=
  (N.of_nat (String.length line) <? MaxScanTokenSize)%N.

(** A byte of white space, or a byte of a character beyond ASCII. *)
Definition wsByte (c : ascii) : bool :=
  isSpace1 c || (128 <=? byte_val c)%N.

Fixpoint wsBytes (s : string) : bool :=
  match s with
  | EmptyString => true
  | String c s' => wsByte c && wsBytes s'
  end.

(** [n] times the byte [c]. *)
Fixpoint repeat_byte (n : nat) (c : ascii) : string :=
  match n with
  | O => EmptyString
  | S n' => String c (repeat_byte n' c)
  end.

(** A line of 65536 bytes. *)
Definition sample_long_line : string := repeat_byte (N.to_nat 65536) "a".

Definition isVString (x : option value) : bool :=
  match x with Some (VString _) => true | _ => false end.

Definition isVFloat64 (x : option value) : bool :=
  match x with Some (VFloat64 _) => true | _ => false end.

Definition isVBool (x : option value) : bool :=
  match x with Some (VBool _) => true | _ => false end.

(** The field [k] holds a value of the type that [UnmarshalJSON] takes out
    of the raw map for good. *)
Definition fieldTaken (k : string) (x : value) : bool :=
  if String.eqb k "model" then isVString (Some x)
  else if String.eqb k "stream" then isVBool (Some x)
  else if String.eqb k "temperature" || String.eqb k "max_tokens"
          || String.eqb k "top_p" || String.eqb k "frequency_penalty"
          || String.eqb k "presence_penalty"
  then isVFloat64 (Some x)
  else false.

(** What [Extra] holds under [k] for a request whose raw map is [rawMap]. *)
Definition spec_extra (rawMap : gmap string value) (k : string) : option value :=
  if String.eqb k "messages" then None
  else match rawMap !! k with
       | Some x => if fieldTaken k x then None else Some x
       | None => None
       end.

Definition sample_models : list ModelInfo.t :=
  [ {| ModelInfo.Model := "gpt-4o"; ModelInfo.Provider := "openai" |};
    {| ModelInfo.Model := "claude-3"; ModelInfo.Provider := "anthropic" |};
    {| ModelInfo.Model := "gemini"; ModelInfo.Provider := "google" |} ].

(** A request with a mistyped [temperature], an empty [model], a fractional
    [max_tokens] and an unknown field. *)
Definition sample_full_request : string :=
  sample "{'messages':[{'role':'system','content':'s'},{'role':'assistant','content':[{'type':'text','text':'a'}]}],'model':'','temperature':'hot','max_tokens':12.7,'system':'be brief','stream':true,'user':'u1'}".

(** The text that a chunk delivers. *)
Definition chunk_text (chunk : Chunk.t) : string :=
  concatText ((fun ch => Chunk.Content (Chunk.Delta ch)) <$> Chunk.Choices chunk).

(** The text that the events deliver, in order. *)
Definition written_text (evs : list Event) : string :=
  concatText
    (omap (fun ev => match ev with
                     | ChunkEvent chunk => Some (chunk_text chunk)
                     | _ => None
                     end) evs).

(** The text of an event payload that parses as an event. *)
Definition payloadText (payload : string) : string :=
  match Unmarshal_RaycastSSEData (TrimSpace payload) with
  | Some d => RaycastSSEData.Text d
  | None => ""
  end.

(** The payload is one line that fits the scanner, ends with no carriage
    return, and is no object that only the generic search can read. *)
Definition plain_payload (payload : string) : Prop :=
  noLF payload = true
  /\ fits ("data:" +:+ payload) = true
  /\ dropCR payload = payload
  /\ (Unmarshal_RaycastSSEData (TrimSpace payload) = None ->
      Unmarshal_map (TrimSpace payload) = None).

(** * Proofs *)

(** ** Strings *)

Lemma string_app_nil_l (s : string) : "" +:+ s = s.
Proof. reflexivity. Qed.

Lemma string_app_cons (c : ascii) (s t : string) :
  String c s +:+ t = String c (s +:+ t).
Proof. reflexivity. Qed.

Lemma string_app_empty_r (s : string) : s +:+ "" = s.
Proof. induction s as [|c s IH]; [done|by rewrite string_app_cons, IH]. Qed.

Lemma string_app_assoc (a b c : string) : (a +:+ b) +:+ c = a +:+ (b +:+ c).
Proof. induction a as [|x a IH]; [done|by rewrite !string_app_cons, IH]. Qed.

Lemma string_length_app (a b : string) :
  String.length (a +:+ b) = (String.length a + String.length b)%nat.
Proof.
  induction a as [|x a IH]; [done|]. rewrite string_app_cons. simpl. by rewrite IH.
Qed.

Lemma eqb_empty_decide (s : string) :
  String.eqb s "" = bool_decide (s = "").
Proof.
  destruct (String.eqb_spec s "");
    [rewrite bool_decide_eq_true_2|rewrite bool_decide_eq_false_2]; done.
Qed.

(** ** The decoders on the payloads of the specification *)

Example event_with_text_and_reason :
  Unmarshal_RaycastSSEData (sample "{'text':'hi','finish_reason':'stop'}")
  = Some {| RaycastSSEData.Text := "hi"; RaycastSSEData.FinishReason := "stop" |}
  /\ extractFragment (sample "{'text':'hi','finish_reason':'stop'}") = Some "hi".
Proof. split; vm_compute; reflexivity. Qed.

Example event_without_known_field :
  extractFragment (sample "{'foo':'bar'}") = None.
Proof. vm_compute. reflexivity. Qed.

Example event_sentinel : extractFragment "[DONE]" = None.
Proof. reflexivity. Qed.

Example event_wrong_shapes :
  Unmarshal_RaycastSSEData "[1,2]" = None
  /\ Unmarshal_RaycastSSEData "null" = Some RaycastSSEData.zero
  /\ Unmarshal_RaycastSSEData (sample "{'text':'a','TEXT':'b'}")
     = Some {| RaycastSSEData.Text := "b"; RaycastSSEData.FinishReason := "" |}
  /\ Unmarshal_RaycastSSEData (sample "{'text':'a'} x") = None
  /\ Unmarshal_map "1e999" = None.
Proof. repeat split; vm_compute; reflexivity. Qed.

Example numbers_are_rounded_to_nearest :
  ParseFloat "0.5" = Some f64_half
  /\ ParseFloat "0.1" = Some (S754_finite false 7205759403792794 (-56))
  /\ ParseFloat "9007199254740993" = Some (S754_finite false 4503599627370496 1)
  /\ ParseFloat "1e-400" = Some f64_zero
  /\ ParseFloat "1e999" = None.
Proof. repeat split; vm_compute; reflexivity. Qed.

Example end_to_end_text :
  parseSSEResponse sample_two_events = "Hello there".
Proof. vm_compute. reflexivity. Qed.

Example scanner_lines_sample :
  Scanner_lines (sample "a|b" +:+ String CR (sample "||c")) = ["a"; "b"; ""; "c"]
  /\ ReadString_lines (sample "a|b||c") = [sample "a|"; sample "b|"; sample "|"]
  /\ Split_LF (sample "a||") = ["a"; ""; ""]
  /\ TrimSpace (sample " |  data x  |") = "data x".
Proof. repeat split; vm_compute; reflexivity. Qed.

(** ** Candidates and the first non-empty one *)

Lemma first_nonempty_step (o : option string) (rest : list (option string)) :
  spec_first_nonempty (o :: rest) =
    match spec_non_empty o with
    | Some s => s
    | None => spec_first_nonempty rest
    end.
Proof. destruct o as [s|]; simpl; [by destruct (decide (s = ""))|done]. Qed.

Lemma nonEmptyString_lookup (m : gmap string value) (k : string) :
  nonEmptyString (m !! k) = spec_non_empty (spec_string_field m k).
Proof.
  unfold spec_string_field. destruct (m !! k) as [[]|]; simpl; try done.
  rewrite eqb_empty_decide. by case_bool_decide; case_decide.
Qed.

Lemma spec_non_empty_fixed (o : option string) (s : string) :
  spec_non_empty o = Some s -> spec_non_empty (Some s) = Some s.
Proof.
  destruct o as [t|]; simpl; [|discriminate].
  destruct (decide (t = "")); [discriminate|]. intros [= <-].
  by destruct (decide (t = "")).
Qed.

(** ** The whole-body fallback *)

(** C5: [extractTextFromJSON] returns the first non-empty string among the
    top-level [content], [choices[0].message.content],
    [choices[0].delta.content], the top-level [text] and the top-level
    [completion], searched in this order, and the empty string when none of
    them is a non-empty string. *)
Theorem extractTextFromJSON_search_order (jsonData : gmap string value) :
  extractTextFromJSON jsonData = spec_first_nonempty (spec_body_candidates jsonData).
Proof.
  unfold extractTextFromJSON, spec_body_candidates.
  rewrite !first_nonempty_step, !nonEmptyString_lookup.
  destruct (spec_non_empty (spec_string_field jsonData "content")); [done|].
  unfold spec_first_choice.
  destruct (jsonData !! "choices") as [[| | | |[|[| | | | |choice] ?]|]|]; simpl;
    try (by repeat case_match).
  unfold spec_object_field.
  destruct (choice !! "message") as [[| | | | |message]|]; simpl;
    rewrite ?nonEmptyString_lookup;
    try destruct (spec_non_empty (spec_string_field message "content")); try done.
  all: destruct (choice !! "delta") as [[| | | | |delta]|]; simpl;
    rewrite ?nonEmptyString_lookup;
    try destruct (spec_non_empty (spec_string_field delta "content")); try done.
Qed.

(** ** The message adapter *)

(** Filling a slice index by index gives the mapped list. *)
Lemma foldl_insert_imap {A B} (f : A -> B) (l : list A) (pre post : list B) :
  length post = length l ->
  foldl (fun acc im => <[im.1 := f im.2]> acc) (pre ++ post)
    (imap (fun i x => (length pre + i, x)) l)
  = pre ++ (f <$> l).
Proof.
  revert pre post. induction l as [|x l IH]; intros pre post Hlen.
  - destruct post; [done|discriminate].
  - destruct post as [|y post]; [discriminate|].
    rewrite imap_cons. cbn [foldl fst snd]. rewrite Nat.add_0_r.
    replace (<[length pre:=f x]> (pre ++ y :: post)) with ((pre ++ [f x]) ++ post).
    2:{ rewrite insert_app_r_alt by lia. rewrite Nat.sub_diag. simpl.
        by rewrite <- app_assoc. }
    rewrite (imap_ext _ (fun i z => (length (pre ++ [f x]) + i, z))).
    2:{ intros i z _. simpl. rewrite length_app. simpl. f_equal. lia. }
    rewrite IH by (simpl in Hlen; lia).
    by rewrite <- app_assoc.
Qed.

Lemma convertMessages_fmap (openaiMessages : list OpenAIMessage.t) :
  convertMessages openaiMessages = convertMessage <$> openaiMessages.
Proof.
  unfold convertMessages.
  pose proof (foldl_insert_imap convertMessage openaiMessages []
                (replicate (length openaiMessages) RaycastMessage.zero)) as H.
  simpl in H. apply H. by rewrite length_replicate.
Qed.

Lemma convertMessage_author (msg : OpenAIMessage.t) :
  RaycastMessage.Author (convertMessage msg) = spec_author (OpenAIMessage.Role msg).
Proof.
  unfold convertMessage, spec_author. simpl.
  destruct (String.eqb_spec (OpenAIMessage.Role msg) "assistant"); by case_decide.
Qed.

(** C7: for every sequence of chat turns, [convertMessages] returns a
    sequence of the same length, and position by position the author is
    ["assistant"] when the role is ["assistant"] and ["user"] for every other
    role. *)
Theorem convertMessages_length_order_author (openaiMessages : list OpenAIMessage.t) :
  length (convertMessages openaiMessages) = length openaiMessages
  /\ RaycastMessage.Author <$> convertMessages openaiMessages
     = (fun msg => spec_author (OpenAIMessage.Role msg)) <$> openaiMessages.
Proof.
  rewrite convertMessages_fmap. split; [by rewrite length_fmap|].
  rewrite <- list_fmap_compose. apply list_fmap_ext. intros i msg _. simpl.
  apply convertMessage_author.
Qed.

Lemma contentText_parts_app (parts : list value) (acc : string) :
  foldl (fun contentText part =>
           match part with
           | VMap partMap =>
               match partMap !! "type" with
               | Some (VString "text") =>
                   match partMap !! "text" with
                   | Some (VString textValue) => contentText +:+ textValue
                   | _ => contentText
                   end
               | _ => contentText
               end
           | _ => contentText
           end) acc parts
  = acc +:+ foldr (fun part rest => spec_part_text part +:+ rest) "" parts.
Proof.
  revert acc. induction parts as [|part parts IH]; intros acc; simpl.
  - by rewrite string_app_empty_r.
  - rewrite IH. unfold spec_part_text, spec_string_field.
    destruct part as [| | | | |partMap]; try done.
    destruct (partMap !! "type") as [[| | |ty| |]|]; try done.
    destruct (decide (ty = "text")) as [->|Hne].
    + destruct (partMap !! "text") as [[]|]; simpl; try done.
      by rewrite string_app_assoc.
    + repeat (case_match; try done). all: congruence.
Qed.

Lemma contentText_spec (content : value) :
  contentText content = spec_content_text content.
Proof.
  destruct content; simpl; try done.
  by rewrite contentText_parts_app.
Qed.

(** C8: for every chat turn the text of the backend turn is resolved
    without failure: a plain string is taken as it is, an array gives the
    concatenation in order of the [text] of every part whose [type] is
    ["text"], other parts giving nothing, and any other content gives the
    empty string. *)
Theorem convertMessages_content_resolution (openaiMessages : list OpenAIMessage.t) :
  (fun turn => RaycastMessage.Text (RaycastMessage.Content turn))
    <$> convertMessages openaiMessages
  = (fun msg => spec_content_text (OpenAIMessage.Content msg)) <$> openaiMessages.
Proof.
  rewrite convertMessages_fmap, <- list_fmap_compose.
  apply list_fmap_ext. intros i msg _. simpl. apply contentText_spec.
Qed.

(** ** The non-streaming aggregator *)

Lemma placeholderText_nonempty : placeholderText <> "".
Proof. discriminate. Qed.

(** The resolved text never is empty. *)
Lemma resolveFullText_nonempty (responseText : string) :
  resolveFullText responseText <> "".
Proof.
  unfold resolveFullText.
  destruct (String.eqb_spec (parseSSEResponse responseText) "") as [He|]; [|done].
  rewrite He.
  destruct (Unmarshal_map responseText) as [m|]; simpl.
  - destruct (String.eqb_spec (extractTextFromJSON m) ""); simpl.
    + apply placeholderText_nonempty.
    + destruct (String.eqb_spec (extractTextFromJSON m) ""); done.
  - apply placeholderText_nonempty.
Qed.

(** C4: when the line-by-line extraction and the whole-body JSON fallback
    both find no text, the handler answers with a response document, not
    with an error, and the message content of the document is the fixed
    placeholder text, which is not the empty string. *)
Theorem no_text_gives_placeholder (w : World) (c : Conn) (bodyBytes modelId : string) :
  parseSSEResponse bodyBytes = "" ->
  bodyFallbackText bodyBytes = "" ->
  exists doc,
    handleNonStreamingResponse w c (ReadOK bodyBytes) modelId = ReplyDocument doc
    /\ doc_contents doc = [placeholderText]
    /\ placeholderText <> "".
Proof.
  intros Hsse Hjson. eexists. split; [reflexivity|].
  split; [|apply placeholderText_nonempty].
  unfold doc_contents. simpl. f_equal.
  unfold resolveFullText. rewrite Hsse. simpl.
  unfold bodyFallbackText in Hjson.
  destruct (Unmarshal_map bodyBytes) as [m|]; [|done].
  by rewrite Hjson.
Qed.

(** The entirely empty body. *)
Lemma no_text_gives_placeholder_witness :
  exists doc,
    handleNonStreamingResponse sample_world Conn_start (ReadOK "") "x" = ReplyDocument doc
    /\ doc_contents doc = [placeholderText]
    /\ placeholderText <> "".
Proof.
  apply (no_text_gives_placeholder sample_world Conn_start "" "x");
    vm_compute; reflexivity.
Defined.

(** C6: every response document that the non-streaming path produces
    reports the finish reason ["length"], whatever the backend events
    said. *)
Theorem finish_reason_always_length (w : World) (c : Conn) (read : ReadResult)
    (modelId : string) (doc : OpenAIChatResponse.t) :
  handleNonStreamingResponse w c read modelId = ReplyDocument doc ->
  doc_finish_reasons doc = ["length"].
Proof.
  destruct read as [bodyBytes|err]; simpl; [|discriminate].
  intros [= <-]. reflexivity.
Qed.

(** A body whose last event says ["stop"]. *)
Lemma finish_reason_always_length_witness :
  exists doc,
    handleNonStreamingResponse sample_world Conn_start (ReadOK sample_two_events) "x"
      = ReplyDocument doc
    /\ doc_contents doc = ["Hello there"]
    /\ doc_finish_reasons doc = ["length"].
Proof.
  eexists. split; [reflexivity|]. split; [vm_compute; reflexivity|].
  apply (finish_reason_always_length sample_world Conn_start
           (ReadOK sample_two_events) "x").
  reflexivity.
Defined.

(** ** The event extractor *)

Lemma genericFragment_spec (m : gmap string value) :
  genericFragment m
  = spec_non_empty (Some (spec_first_nonempty (spec_event_candidates m))).
Proof.
  unfold genericFragment, spec_event_candidates.
  rewrite !first_nonempty_step, !nonEmptyString_lookup.
  destruct (spec_non_empty (spec_string_field m "text")) as [t|] eqn:Ht.
  { symmetry. eapply spec_non_empty_fixed, Ht. }
  destruct (spec_non_empty (spec_string_field m "content")) as [u|] eqn:Hu.
  { symmetry. eapply spec_non_empty_fixed, Hu. }
  unfold spec_object_field.
  destruct (m !! "message") as [[| | | | |message]|]; simpl; try done.
  rewrite nonEmptyString_lookup.
  destruct (spec_non_empty (spec_string_field message "content")) as [v|] eqn:Hv;
    [|done].
  symmetry. eapply spec_non_empty_fixed, Hv.
Qed.

(** C2, as the code has it: for the payload [{"content":"hi"}] the strict
    parse succeeds, with an empty text, and no fragment is produced; a
    payload whose strict parse succeeds gives its text when that is not
    empty and nothing otherwise; a payload whose strict parse fails and which
    is a JSON object gives the first non-empty string among the top-level
    [text], the top-level [content] and [message.content], in this order. *)
Theorem extractFragment_strict_then_fallback :
  (Unmarshal_RaycastSSEData sample_content_payload = Some RaycastSSEData.zero
   /\ extractFragment sample_content_payload = None)
  /\ (forall data d,
        Unmarshal_RaycastSSEData data = Some d ->
        extractFragment data = spec_non_empty (Some (RaycastSSEData.Text d)))
  /\ (forall data m,
        Unmarshal_RaycastSSEData data = None ->
        Unmarshal_map data = Some m ->
        extractFragment data
        = spec_non_empty (Some (spec_first_nonempty (spec_event_candidates m)))).
Proof.
  split; [split; vm_compute; reflexivity|].
  split.
  - intros data d Hd. unfold extractFragment.
    destruct (String.eqb_spec data "[DONE]") as [->|_].
    { vm_compute in Hd. discriminate. }
    rewrite Hd. simpl. rewrite eqb_empty_decide.
    by case_bool_decide; case_decide.
  - intros data m Hd Hm. unfold extractFragment.
    destruct (String.eqb_spec data "[DONE]") as [->|_].
    { vm_compute in Hm. discriminate. }
    rewrite Hd, Hm. apply genericFragment_spec.
Qed.

(** The payload [{"text":5,"content":"hi"}]: the strict parse fails on the
    number, and the fallback finds ["hi"]. *)
Lemma extractFragment_strict_then_fallback_witness :
  Unmarshal_RaycastSSEData sample_mistyped_payload = None
  /\ extractFragment sample_mistyped_payload = Some "hi".
Proof.
  split; [vm_compute; reflexivity|].
  destruct extractFragment_strict_then_fallback as [_ [_ H]].
  rewrite (H sample_mistyped_payload
             (<["content" := VString "hi"]>
                (<["text" := VFloat64 (S754_finite false 5629499534213120 (-50))]> ∅)));
    vm_compute; reflexivity.
Defined.

(** C2 as stated fails: on [{"content":"hi"}] the strict parse does not
    fail, and the payload does not give the fragment ["hi"]. *)
Lemma content_payload_counterexample :
  Unmarshal_RaycastSSEData sample_content_payload <> None
  /\ extractFragment sample_content_payload <> Some "hi".
Proof. split; vm_compute; discriminate. Qed.

(** The line [data: {"content":"hi"}] adds nothing to the text. *)
Lemma content_payload_line :
  parseSSEResponse ("data: " +:+ sample_content_payload) = "".
Proof. vm_compute. reflexivity. Qed.

(** ** The streaming re-emitter: identifiers and the sentinel *)

Section StreamingInvariants.
Variable w : World.
Variable modelId : string.

Lemma ids_follow_refl (c : Conn) : ids_follow w c c.
Proof.
  split; [done|]. rewrite Nat.sub_diag. simpl. by rewrite app_nil_r.
Qed.

Lemma ids_follow_dispatchLine (c0 c : Conn) (l : string) :
  ids_follow w c0 c -> ids_follow w c0 (dispatchLine w modelId c l).
Proof.
  intros [Hle Hids]. unfold dispatchLine.
  destruct (String.eqb (TrimSpace l) ""); [done|].
  destruct (HasPrefix l "data:"); [|done].
  destruct (Unmarshal_RaycastSSEData _) as [d|]; [|done].
  split; simpl; [lia|].
  unfold chunk_ids in *. rewrite omap_app, Hids. simpl.
  replace (S (uuid_calls c) - uuid_calls c0)
    with (S (uuid_calls c - uuid_calls c0)) by lia.
  rewrite seq_S, fmap_app, <- app_assoc. simpl.
  do 3 f_equal. unfold chunk_id_at. do 2 f_equal. lia.
Qed.

Lemma ids_follow_dispatch (ls : list string) (c0 c : Conn) :
  ids_follow w c0 c -> ids_follow w c0 (foldl (dispatchLine w modelId) c ls).
Proof.
  revert c. induction ls as [|l ls IH]; intros c H; simpl; [done|].
  by apply IH, ids_follow_dispatchLine.
Qed.

Lemma ids_follow_read (lines : list string) (c0 : Conn) (st : string * Conn) :
  ids_follow w c0 st.2 ->
  ids_follow w c0 (foldl (readStep w modelId) st lines).2.
Proof.
  revert st. induction lines as [|line lines IH]; intros [buffer c] H; simpl; [done|].
  apply IH. destruct (HasSuffix _ _); simpl; [|done].
  by apply ids_follow_dispatch.
Qed.

(** C1, as the code has it: every chunk carries an identifier of its own,
    drawn when the chunk is built; the identifiers of the chunks of a
    request are, in order, the successive draws of the generator made during
    the request. *)
Theorem chunk_ids_are_successive_draws (c : Conn) (body : string) :
  let c' := handleStreamingResponse w modelId c body in
  chunk_ids (written c')
  = chunk_ids (written c)
    ++ (chunk_id_at w <$> seq (uuid_calls c) (uuid_calls c' - uuid_calls c)).
Proof.
  unfold handleStreamingResponse.
  pose proof (ids_follow_read (ReadString_lines body) c (EmptyString, c)
                (ids_follow_refl c)) as [Hle Hids].
  destruct (foldl _ _ _) as [buffer c1]. simpl in *.
  unfold chunk_ids in *. rewrite omap_app, Hids. simpl. by rewrite app_nil_r.
Qed.

Lemma no_sentinel_refl (c : Conn) : no_sentinel_since c c.
Proof. exists []. split; [by rewrite app_nil_r|]. apply not_elem_of_nil. Qed.

Lemma no_sentinel_dispatchLine (c0 c : Conn) (l : string) :
  no_sentinel_since c0 c -> no_sentinel_since c0 (dispatchLine w modelId c l).
Proof.
  intros (evs & Hw & Hno). unfold dispatchLine.
  destruct (String.eqb (TrimSpace l) ""); [by exists evs|].
  destruct (HasPrefix l "data:"); [|by exists evs].
  destruct (Unmarshal_RaycastSSEData _) as [d|]; [|by exists evs].
  eexists (evs ++ [_; _]). simpl. split; [by rewrite Hw, app_assoc|].
  rewrite elem_of_app, !elem_of_cons, elem_of_nil.
  intros [?|[?|[?|?]]]; done.
Qed.

Lemma no_sentinel_dispatch (ls : list string) (c0 c : Conn) :
  no_sentinel_since c0 c ->
  no_sentinel_since c0 (foldl (dispatchLine w modelId) c ls).
Proof.
  revert c. induction ls as [|l ls IH]; intros c H; simpl; [done|].
  by apply IH, no_sentinel_dispatchLine.
Qed.

Lemma no_sentinel_read (lines : list string) (c0 : Conn) (st : string * Conn) :
  no_sentinel_since c0 st.2 ->
  no_sentinel_since c0 (foldl (readStep w modelId) st lines).2.
Proof.
  revert st. induction lines as [|line lines IH]; intros [buffer c] H; simpl; [done|].
  apply IH. destruct (HasSuffix _ _); simpl; [|done].
  by apply no_sentinel_dispatch.
Qed.

(** Whatever the backend sends, the sentinel is written once, after
    everything else, and flushed. *)
Lemma sentinel_once_at_the_end (c : Conn) (body : string) :
  exists evs,
    written (handleStreamingResponse w modelId c body)
    = written c ++ evs ++ [DoneEvent; FlushEvent]
    /\ DoneEvent ∉ evs.
Proof.
  unfold handleStreamingResponse.
  pose proof (no_sentinel_read (ReadString_lines body) c (EmptyString, c)
                (no_sentinel_refl c)) as (evs & Hw & Hno).
  destruct (foldl _ _ _) as [buffer c1]. simpl in *.
  exists evs. split; [by rewrite Hw, app_assoc|done].
Qed.

End StreamingInvariants.

Lemma sample_two_events_trace :
  written (handleStreamingResponse sample_world "x" Conn_start sample_two_events)
  = [ ChunkEvent (chunk_at sample_world "x" 0
                    {| RaycastSSEData.Text := "Hello";
                       RaycastSSEData.FinishReason := "" |});
      FlushEvent;
      ChunkEvent (chunk_at sample_world "x" 1
                    {| RaycastSSEData.Text := " there";
                       RaycastSSEData.FinishReason := "stop" |});
      FlushEvent; DoneEvent; FlushEvent ].
Proof. vm_compute. reflexivity. Qed.

(** C1 as stated fails: the two chunks of the sample request carry different
    identifiers. *)
Lemma one_identifier_counterexample :
  ~ exists id, forall chunk,
      ChunkEvent chunk
        ∈ written (handleStreamingResponse sample_world "x" Conn_start
                     sample_two_events) ->
      Chunk.ID chunk = id.
Proof.
  intros [id H]. rewrite sample_two_events_trace in H.
  pose proof (H _ (list_elem_of_here _ _)) as H0.
  pose proof (H _ (list_elem_of_further _ _ _
                     (list_elem_of_further _ _ _ (list_elem_of_here _ _)))) as H1.
  rewrite <- H1 in H0. vm_compute in H0. discriminate.
Qed.

(** ** The temperature of the request sent upstream *)

Lemma take_messages_lookup (rawMap rawMap' : gmap string value)
    (ms : list OpenAIMessage.t) (k : string) :
  take_messages rawMap = Some (ms, rawMap') -> k <> "messages" ->
  rawMap' !! k = rawMap !! k.
Proof.
  unfold take_messages. intros H Hk.
  destruct (rawMap !! "messages") as [v|]; simplify_option_eq; [|done].
  by rewrite lookup_delete_ne.
Qed.

Lemma take_string_lookup (k k' : string) (rawMap : gmap string value) :
  k' <> k -> (take_string k rawMap).2 !! k' = rawMap !! k'.
Proof.
  unfold take_string. intros Hk.
  destruct (rawMap !! k) as [[]|]; simpl; try done.
  by rewrite lookup_delete_ne.
Qed.

Lemma take_float64_value (k : string) (rawMap : gmap string value) :
  (take_float64 k rawMap).1
  = match rawMap !! k with Some (VFloat64 v) => Some v | _ => None end.
Proof. unfold take_float64. by destruct (rawMap !! k) as [[]|]. Qed.

Section Temperature.
Variable DefaultModel : string.
Variable Models : Type.
Variable getProviderInfo : string -> Models -> string * string.
Variable bindErrorText : string -> string.
Variable int_unrepresentable : float64 -> Z.

(** The temperature of the bound request is the number under
    [temperature], and zero when there is none. *)
Lemma UnmarshalJSON_Temperature (data : string) (rawMap : gmap string value)
    (body : OpenAIChatRequest.t) :
  Unmarshal_map data = Some rawMap ->
  UnmarshalJSON int_unrepresentable data = Some body ->
  OpenAIChatRequest.Temperature body
  = match rawMap !! "temperature" with
    | Some (VFloat64 v) => v
    | _ => f64_zero
    end.
Proof.
  intros Hraw. unfold UnmarshalJSON. rewrite Hraw. simpl.
  destruct (take_messages rawMap) as [[ms rawMap1]|] eqn:Hms; simpl; [|discriminate].
  pose proof (take_string_lookup "model" "temperature" rawMap1 ltac:(done)) as Hmodel.
  destruct (take_string "model" rawMap1) as [model rawMap2].
  pose proof (take_float64_value "temperature" rawMap2) as Ht.
  destruct (take_float64 "temperature" rawMap2) as [t rawMap3].
  destruct (take_bool "stream" rawMap3) as [stream rawMap4].
  destruct (take_string "system" rawMap4) as [system rawMap5].
  destruct (take_float64 "max_tokens" rawMap5) as [maxTokens rawMap6].
  destruct (take_float64 "top_p" rawMap6) as [topP rawMap7].
  destruct (take_float64 "frequency_penalty" rawMap7) as [fp rawMap8].
  destruct (take_float64 "presence_penalty" rawMap8) as [pp rawMap9].
  intros [= <-]. simpl in *. subst t. rewrite Hmodel.
  rewrite (take_messages_lookup _ _ _ "temperature" Hms) by done.
  by destruct (rawMap !! "temperature") as [[]|].
Qed.

Lemma handleChatCompletions_Temperature (w : World) (c : Conn) (models : Models)
    (data : string) (requestBody : RequestBody) (stream : bool) (model : string) :
  handleChatCompletions DefaultModel Models getProviderInfo bindErrorText
    int_unrepresentable w c models data = Upstream requestBody stream model ->
  exists body,
    UnmarshalJSON int_unrepresentable data = Some body
    /\ RaycastChatRequest.Temperature (request requestBody)
       = if f64_eqb (OpenAIChatRequest.Temperature body) f64_zero then f64_half
         else OpenAIChatRequest.Temperature body.
Proof.
  unfold handleChatCompletions.
  destruct (UnmarshalJSON int_unrepresentable data) as [body|]; [|discriminate].
  destruct (length (OpenAIChatRequest.Messages body) =? 0)%nat; [discriminate|].
  destruct (getProviderInfo _ models) as [provider modelName].
  intros [= <- _ _]. exists body. split; [done|].
  by destruct (0 <? OpenAIChatRequest.MaxTokens body)%Z.
Qed.

(** C10: when a request is sent upstream and its [temperature] field is
    absent or is a number equal to 0, the temperature sent is 0.5; and no
    request sent upstream has a temperature equal to 0. *)
Theorem temperature_absent_or_zero_becomes_half (w : World) (c : Conn)
    (models : Models) (data : string) (rawMap : gmap string value)
    (requestBody : RequestBody) (stream : bool) (model : string) :
  Unmarshal_map data = Some rawMap ->
  handleChatCompletions DefaultModel Models getProviderInfo bindErrorText
    int_unrepresentable w c models data = Upstream requestBody stream model ->
  (rawMap !! "temperature" = None
   \/ (exists v, rawMap !! "temperature" = Some (VFloat64 v)
                 /\ f64_eqb v f64_zero = true) ->
   RaycastChatRequest.Temperature (request requestBody) = f64_half)
  /\ f64_eqb (RaycastChatRequest.Temperature (request requestBody)) f64_zero = false.
Proof.
  intros Hraw Hup.
  destruct (handleChatCompletions_Temperature _ _ _ _ _ _ _ Hup) as (body & Hbody & ->).
  rewrite (UnmarshalJSON_Temperature _ _ _ Hraw Hbody).
  split.
  - intros [-> | (v & -> & Hv)]; [reflexivity|]. by rewrite Hv.
  - destruct (rawMap !! "temperature") as [[| |v| | |]|]; try reflexivity.
    by destruct (f64_eqb v f64_zero) eqn:Hv.
Qed.

End Temperature.

(** A request without [temperature]. *)
Lemma temperature_absent_or_zero_becomes_half_witness :
  exists requestBody,
    handleChatCompletions "gpt-4o" (list (string * string)) sample_getProviderInfo
      (fun _ => "") (fun _ => 0%Z) sample_world Conn_start [("x", "openai")]
      sample_request = Upstream requestBody false "x"
    /\ RaycastChatRequest.Temperature (request requestBody) = f64_half.
Proof.
  eexists. split; [vm_compute; reflexivity|].
  eapply (temperature_absent_or_zero_becomes_half "gpt-4o" (list (string * string))
            sample_getProviderInfo (fun _ => "") (fun _ => 0%Z) sample_world
            Conn_start [("x", "openai")] sample_request).
  - vm_compute. reflexivity.
  - vm_compute. reflexivity.
  - left. vm_compute. reflexivity.
Defined.

(** A request whose [temperature] is 0. *)
Lemma temperature_zero_sample :
  exists requestBody,
    handleChatCompletions "gpt-4o" (list (string * string)) sample_getProviderInfo
      (fun _ => "") (fun _ => 0%Z) sample_world Conn_start [("x", "openai")]
      (sample "{'messages':[{'role':'user','content':'hi'}],'temperature':0}")
    = Upstream requestBody false "gpt-4o"
    /\ RaycastChatRequest.Temperature (request requestBody) = f64_half.
Proof. eexists. split; vm_compute; reflexivity. Qed.

(** ** Lines *)

Lemma noLF_app (a b : string) : noLF (a +:+ b) = noLF a && noLF b.
Proof.
  induction a as [|x a IH]; [done|]. rewrite string_app_cons. simpl.
  by rewrite IH, andb_assoc.
Qed.

Lemma ReadString_from_line (l line rest : string) :
  noLF l = true ->
  ReadString_from line (l +:+ NL +:+ rest)
  = (line +:+ l +:+ NL) :: ReadString_lines rest.
Proof.
  revert line. induction l as [|c l IH]; intros line Hl.
  - done.
  - simpl in Hl. apply andb_true_iff in Hl as [Hc Hl].
    apply negb_true_iff in Hc.
    rewrite string_app_cons. simpl. rewrite Hc.
    rewrite IH by done. by rewrite string_app_assoc.
Qed.

Lemma ReadString_from_noLF (s line : string) :
  noLF s = true -> ReadString_from line s = [].
Proof.
  revert line. induction s as [|c s IH]; intros line Hs; [done|].
  simpl in *. apply andb_true_iff in Hs as [Hc Hs].
  apply negb_true_iff in Hc. rewrite Hc. by apply IH.
Qed.

Lemma ReadString_from_app (a b line : string) :
  ReadString_from line (a +:+ b)
  = ReadString_from line a ++ ReadString_from (pendingLine line a) b.
Proof.
  revert line. induction a as [|c a IH]; intros line; [done|].
  rewrite string_app_cons. simpl.
  destruct (Ascii.eqb c LF); [|apply IH].
  by rewrite IH.
Qed.

Lemma pendingLine_noLF (a line : string) :
  noLF line = true -> noLF (pendingLine line a) = true.
Proof.
  revert line. induction a as [|c a IH]; intros line Hline; [done|].
  simpl. destruct (Ascii.eqb c LF) eqn:Hc; [by apply IH|].
  apply IH. rewrite noLF_app, Hline. simpl. by rewrite Hc.
Qed.

Lemma Split_LF_line (x rest : string) :
  noLF x = true -> Split_LF (x +:+ String LF rest) = x :: Split_LF rest.
Proof.
  induction x as [|c x IH]; intros Hx.
  - done.
  - simpl in Hx. apply andb_true_iff in Hx as [Hc Hx].
    apply negb_true_iff in Hc.
    rewrite string_app_cons. simpl. rewrite Hc. by rewrite IH.
Qed.

(** ** Suffixes *)

Lemma HasSuffix_cons (c : ascii) (s suffix : string) :
  HasSuffix (String c s) suffix
  = String.eqb (String c s) suffix || HasSuffix s suffix.
Proof. reflexivity. Qed.

Lemma HasSuffix_app (a b : string) : HasSuffix (a +:+ b) b = true.
Proof.
  induction a as [|c a IH].
  - rewrite string_app_nil_l.
    destruct b; simpl; by rewrite ?String.eqb_refl, ?Ascii.eqb_refl.
  - rewrite string_app_cons, HasSuffix_cons, IH. apply orb_true_r.
Qed.

Lemma HasSuffix_line (x : string) :
  noLF x = true -> HasSuffix (x +:+ NL) NN = false.
Proof.
  induction x as [|c x IH]; intros Hx; [done|].
  simpl in Hx. apply andb_true_iff in Hx as [Hc Hx].
  apply negb_true_iff in Hc.
  rewrite string_app_cons. simpl. rewrite (IH Hx).
  rewrite Hc. reflexivity.
Qed.

Lemma HasSuffix_app_long (buffer line : string) :
  (2 <= String.length line)%nat ->
  HasSuffix (buffer +:+ line) NN = HasSuffix line NN.
Proof.
  intros Hlen. induction buffer as [|c buffer IH]; [done|].
  rewrite string_app_cons, HasSuffix_cons, IH.
  destruct (String.eqb_spec (String c (buffer +:+ line)) NN) as [He|]; [|done].
  apply (f_equal String.length) in He. simpl in He.
  rewrite string_length_app in He. lia.
Qed.

(** ** One dispatched event *)

Lemma data_line_not_blank (p : string) :
  String.eqb (TrimSpace ("data:" +:+ p)) "" = false.
Proof.
  change ("data:" +:+ p)
    with (String "d" (String "a" (String "t" (String "a" (String ":" p))))).
  unfold TrimSpace.
  change (TrimLeftSpace (String "d" (String "a" (String "t" (String "a" (String ":" p))))))
    with (String "d" (String "a" (String "t" (String "a" (String ":" p))))).
  change (TrimRightSpace (String "d" (String "a" (String "t" (String "a" (String ":" p))))))
    with (String "d" (TrimRightSpace (String "a" (String "t" (String "a" (String ":" p)))))).
  reflexivity.
Qed.

Section Dispatch.
Variable w : World.
Variable modelId : string.

Lemma dispatchLine_blank (c : Conn) : dispatchLine w modelId c "" = c.
Proof. reflexivity. Qed.

Lemma dispatchLine_data (c : Conn) (p : string) (d : RaycastSSEData.t) :
  Unmarshal_RaycastSSEData (TrimSpace p) = Some d ->
  dispatchLine w modelId c ("data:" +:+ p)
  = {| uuid_calls := S (uuid_calls c);
       time_calls := S (time_calls c);
       written := written c ++ [ChunkEvent (makeChunk w modelId c d); FlushEvent] |}.
Proof.
  intros Hd. unfold dispatchLine. rewrite data_line_not_blank.
  change (HasPrefix ("data:" +:+ p) "data:") with true.
  change (TrimPrefix ("data:" +:+ p) "data:") with p.
  cbv iota. by rewrite Hd.
Qed.

(** A [data:] line and its blank line, read into an empty buffer. *)
Lemma readStep_event (c : Conn) (p : string) (d : RaycastSSEData.t) :
  noLF p = true ->
  Unmarshal_RaycastSSEData (TrimSpace p) = Some d ->
  foldl (readStep w modelId) (EmptyString, c) ["data:" +:+ p +:+ NL; NL]
  = (EmptyString,
     {| uuid_calls := S (uuid_calls c);
        time_calls := S (time_calls c);
        written := written c ++ [ChunkEvent (makeChunk w modelId c d); FlushEvent] |}).
Proof.
  intros Hp Hd.
  assert (noLF ("data:" +:+ p) = true) as Hline by (rewrite noLF_app, Hp; done).
  cbn [foldl]. unfold readStep at 2. rewrite string_app_nil_l.
  rewrite <- string_app_assoc.
  change (String LF (String LF EmptyString)) with NN.
  rewrite (HasSuffix_line _ Hline).
  unfold readStep. rewrite string_app_assoc.
  change (NL +:+ NL) with NN. rewrite HasSuffix_app.
  unfold NN. rewrite (Split_LF_line _ _ Hline).
  change (Split_LF (String LF EmptyString)) with [EmptyString; EmptyString].
  cbn [foldl]. rewrite (dispatchLine_data _ _ _ Hd). by rewrite !dispatchLine_blank.
Qed.

(** C3: for an upstream stream of two well-formed events, each a [data:]
    line whose payload parses as an event followed by a blank line, and then
    the end of the stream, the output is the chunk of the first event, the
    chunk of the second event and one [DONE] sentinel, in this order and
    each flushed, with nothing after the sentinel. *)
Theorem two_events_then_done (p1 p2 : string) (d1 d2 : RaycastSSEData.t) :
  noLF p1 = true -> noLF p2 = true ->
  Unmarshal_RaycastSSEData (TrimSpace p1) = Some d1 ->
  Unmarshal_RaycastSSEData (TrimSpace p2) = Some d2 ->
  written (handleStreamingResponse w modelId Conn_start (sse_event p1 +:+ sse_event p2))
  = [ ChunkEvent (chunk_at w modelId 0 d1); FlushEvent;
      ChunkEvent (chunk_at w modelId 1 d2); FlushEvent;
      DoneEvent; FlushEvent ].
Proof.
  intros Hp1 Hp2 Hd1 Hd2.
  assert (noLF ("data:" +:+ p1) = true) as Hl1 by (rewrite noLF_app, Hp1; done).
  assert (noLF ("data:" +:+ p2) = true) as Hl2 by (rewrite noLF_app, Hp2; done).
  unfold handleStreamingResponse, ReadString_lines, sse_event.
  replace (("data:" +:+ p1 +:+ NL +:+ NL) +:+ "data:" +:+ p2 +:+ NL +:+ NL)
    with (("data:" +:+ p1) +:+ NL +:+ ("" +:+ NL +:+
          (("data:" +:+ p2) +:+ NL +:+ ("" +:+ NL +:+ "")))).
  2:{ rewrite !string_app_nil_l, string_app_empty_r, !string_app_assoc. done. }
  rewrite (ReadString_from_line _ _ _ Hl1). unfold ReadString_lines.
  rewrite (ReadString_from_line "" _ _ eq_refl). unfold ReadString_lines.
  rewrite (ReadString_from_line _ _ _ Hl2). unfold ReadString_lines.
  rewrite (ReadString_from_line "" _ _ eq_refl).
  change (ReadString_lines "") with (@nil string).
  rewrite !string_app_nil_l.
  change (?a :: ?b :: ?c :: ?d :: []) with ([a; b] ++ [c; d]).
  rewrite foldl_app.
  rewrite !string_app_assoc.
  rewrite (readStep_event _ _ _ Hp1 Hd1), (readStep_event _ _ _ Hp2 Hd2).
  reflexivity.
Qed.

End Dispatch.

(** The stream [data: {"text":"Hello"}], blank line,
    [data: {"text":" there","finish_reason":"stop"}], blank line. *)
Lemma two_events_then_done_witness :
  written (handleStreamingResponse sample_world "x" Conn_start
             (sse_event (sample " {'text':'Hello'}")
              +:+ sse_event (sample " {'text':' there','finish_reason':'stop'}")))
  = [ ChunkEvent (chunk_at sample_world "x" 0
                    {| RaycastSSEData.Text := "Hello";
                       RaycastSSEData.FinishReason := "" |});
      FlushEvent;
      ChunkEvent (chunk_at sample_world "x" 1
                    {| RaycastSSEData.Text := " there";
                       RaycastSSEData.FinishReason := "stop" |});
      FlushEvent; DoneEvent; FlushEvent ].
Proof.
  apply (two_events_then_done sample_world "x"); vm_compute; reflexivity.
Defined.

(** ** A group that no blank line ends *)

Lemma group_lines_quiet (ls : list string) (partial line : string) :
  noLF line = true ->
  Forall (fun l => l <> "" /\ noLF l = true) ls ->
  noLF partial = true ->
  Forall quiet (ReadString_from line (joinLines ls +:+ partial)).
Proof.
  intros Hline Hls Hpartial. revert line Hline.
  induction Hls as [|l ls [Hne Hl] _ IH]; intros line Hline.
  - simpl. rewrite string_app_nil_l, ReadString_from_noLF by done. constructor.
  - simpl. rewrite !string_app_assoc, (ReadString_from_line _ _ _ Hl).
    constructor; [|by apply IH].
    split.
    + rewrite !string_length_app. destruct l; [done|]. simpl. lia.
    + rewrite <- string_app_assoc. apply HasSuffix_line.
      by rewrite noLF_app, Hline, Hl.
Qed.

Section Group.
Variable w : World.
Variable modelId : string.

Lemma readStep_quiet (lines : list string) (st : string * Conn) :
  Forall quiet lines ->
  (foldl (readStep w modelId) st lines).2 = st.2.
Proof.
  intros Hq. revert st.
  induction Hq as [|line lines [Hlen Hsuf] _ IH]; intros [buffer c].
  - done.
  - cbn [foldl]. rewrite IH. unfold readStep.
    change (String LF (String LF EmptyString)) with NN.
    by rewrite (HasSuffix_app_long _ _ Hlen), Hsuf.
Qed.

(** C9: lines that stay in the buffer at the end of the stream, a group of
    non-empty lines with no blank line after them and possibly a last line
    without its line feed, are never dispatched: the handler writes what it
    writes without them, so their fragments give no chunk, and the [DONE]
    sentinel still ends the output. *)
Theorem unterminated_group_is_dropped (c : Conn) (pre : string)
    (ls : list string) (partial : string) :
  Forall (fun l => l <> "" /\ noLF l = true) ls ->
  noLF partial = true ->
  handleStreamingResponse w modelId c (pre +:+ joinLines ls +:+ partial)
  = handleStreamingResponse w modelId c pre
  /\ exists evs,
       written (handleStreamingResponse w modelId c (pre +:+ joinLines ls +:+ partial))
       = evs ++ [DoneEvent; FlushEvent].
Proof.
  intros Hls Hpartial.
  assert (forall body, exists evs,
            written (handleStreamingResponse w modelId c body)
            = evs ++ [DoneEvent; FlushEvent]) as Hdone.
  { intros body. unfold handleStreamingResponse.
    destruct (foldl _ _ _) as [buffer c1]. by eexists. }
  split; [|apply Hdone].
  unfold handleStreamingResponse, ReadString_lines.
  rewrite ReadString_from_app, foldl_app.
  pose proof (readStep_quiet _ (foldl (readStep w modelId) (EmptyString, c)
                                  (ReadString_from EmptyString pre))
                (group_lines_quiet ls partial _
                   (pendingLine_noLF pre EmptyString eq_refl) Hls Hpartial)) as H.
  destruct (foldl (readStep w modelId) (foldl _ _ _) _) as [buffer2 c2].
  destruct (foldl (readStep w modelId) _ _) as [buffer1 c1].
  simpl in H. by subst.
Qed.

End Group.

(** A complete event followed by a [data:] line that no blank line
    follows. *)
Lemma unterminated_group_is_dropped_witness :
  handleStreamingResponse sample_world "x" Conn_start
    (sample "data: {'text':'Hello'}||"
     +:+ joinLines [sample "data: {'text':' there','finish_reason':'stop'}"] +:+ "")
  = handleStreamingResponse sample_world "x" Conn_start
      (sample "data: {'text':'Hello'}||")
  /\ exists evs,
       written (handleStreamingResponse sample_world "x" Conn_start
                  (sample "data: {'text':'Hello'}||"
                   +:+ joinLines [sample "data: {'text':' there','finish_reason':'stop'}"]
                   +:+ ""))
       = evs ++ [DoneEvent; FlushEvent].
Proof.
  apply (unterminated_group_is_dropped sample_world "x" Conn_start).
  - constructor; [|constructor]. split; [discriminate|vm_compute; reflexivity].
  - reflexivity.
Defined.

(** The second event of the sample gives no chunk when its blank line is
    missing. *)
Lemma unterminated_group_sample_trace :
  written (handleStreamingResponse sample_world "x" Conn_start
             (sample "data: {'text':'Hello'}||data: {'text':' there','finish_reason':'stop'}|"))
  = [ ChunkEvent (chunk_at sample_world "x" 0
                    {| RaycastSSEData.Text := "Hello";
                       RaycastSSEData.FinishReason := "" |});
      FlushEvent; DoneEvent; FlushEvent ].
Proof. vm_compute. reflexivity. Qed.

(** * Further properties *)

(** ** The streaming re-emitter: the shape of the output *)

Lemma chunk_events_snoc (chunks : list Chunk.t) (chunk : Chunk.t) :
  chunk_events (chunks ++ [chunk]) = chunk_events chunks ++ [ChunkEvent chunk; FlushEvent].
Proof. unfold chunk_events. rewrite bind_app. simpl. done. Qed.

Section StreamingShape.
Variable w : World.
Variable modelId : string.

Lemma chunks_since_refl (c : Conn) : chunks_since modelId c c.
Proof.
  exists []. simpl. rewrite app_nil_r, !Nat.add_0_r. by repeat split.
Qed.

Lemma makeChunk_well_formed (c : Conn) (d : RaycastSSEData.t) :
  chunk_well_formed modelId (makeChunk w modelId c d).
Proof. by repeat split. Qed.

Lemma chunks_since_dispatchLine (c0 c : Conn) (l : string) :
  chunks_since modelId c0 c -> chunks_since modelId c0 (dispatchLine w modelId c l).
Proof.
  intros (chunks & Hw & Hwf & Hu & Ht). unfold dispatchLine.
  destruct (String.eqb (TrimSpace l) ""); [by exists chunks|].
  destruct (HasPrefix l "data:"); [|by exists chunks].
  destruct (Unmarshal_RaycastSSEData _) as [d|]; [|by exists chunks].
  exists (chunks ++ [makeChunk w modelId c d]). simpl.
  rewrite chunk_events_snoc, Hw, length_app, Hu, Ht. simpl.
  repeat split; [by rewrite app_assoc| |lia|lia].
  apply Forall_app. split; [done|]. constructor; [|done].
  apply makeChunk_well_formed.
Qed.

Lemma chunks_since_dispatch (ls : list string) (c0 c : Conn) :
  chunks_since modelId c0 c ->
  chunks_since modelId c0 (foldl (dispatchLine w modelId) c ls).
Proof.
  revert c. induction ls as [|l ls IH]; intros c H; simpl; [done|].
  by apply IH, chunks_since_dispatchLine.
Qed.

Lemma chunks_since_read (lines : list string) (c0 : Conn) (st : string * Conn) :
  chunks_since modelId c0 st.2 ->
  chunks_since modelId c0 (foldl (readStep w modelId) st lines).2.
Proof.
  revert st. induction lines as [|line lines IH]; intros [buffer c] H; simpl; [done|].
  apply IH. destruct (HasSuffix _ _); simpl; [|done].
  by apply chunks_since_dispatch.
Qed.

(** X1: whatever the backend sends, the streaming handler writes chunks,
    each followed at once by a flush, and after them one [DONE] sentinel and
    a last flush; every chunk has the object tag [chat.completion.chunk], the
    requested model name, an identifier that begins with [chatcmpl-] and one
    choice, of index 0; one identifier is drawn per chunk. *)
Theorem stream_output_shape (c : Conn) (body : string) :
  exists chunks,
    written (handleStreamingResponse w modelId c body)
    = written c ++ chunk_events chunks ++ [DoneEvent; FlushEvent]
    /\ Forall (chunk_well_formed modelId) chunks
    /\ uuid_calls (handleStreamingResponse w modelId c body)
       = (uuid_calls c + length chunks)%nat.
Proof.
  unfold handleStreamingResponse.
  pose proof (chunks_since_read (ReadString_lines body) c (EmptyString, c)
                (chunks_since_refl c)) as (chunks & Hw & Hwf & Hu & Ht).
  destruct (foldl _ _ _) as [buffer c1]. simpl in *.
  exists chunks. by rewrite Hw, app_assoc.
Qed.

(** ** Any number of events *)

Lemma dispatchLine_data_any (c : Conn) (p : string) :
  dispatchLine w modelId c ("data:" +:+ p)
  = match Unmarshal_RaycastSSEData (TrimSpace p) with
    | Some d =>
        {| uuid_calls := S (uuid_calls c);
           time_calls := S (time_calls c);
           written := written c ++ [ChunkEvent (makeChunk w modelId c d); FlushEvent] |}
    | None => c
    end.
Proof.
  unfold dispatchLine. rewrite data_line_not_blank.
  change (HasPrefix ("data:" +:+ p) "data:") with true.
  change (TrimPrefix ("data:" +:+ p) "data:") with p.
  reflexivity.
Qed.

Lemma readStep_event_any (c : Conn) (p : string) :
  noLF p = true ->
  foldl (readStep w modelId) (EmptyString, c) ["data:" +:+ p +:+ NL; NL]
  = (EmptyString, dispatchLine w modelId c ("data:" +:+ p)).
Proof.
  intros Hp.
  assert (noLF ("data:" +:+ p) = true) as Hline by (rewrite noLF_app, Hp; done).
  cbn [foldl]. unfold readStep at 2. rewrite string_app_nil_l.
  rewrite <- string_app_assoc.
  change (String LF (String LF EmptyString)) with NN.
  rewrite (HasSuffix_line _ Hline).
  unfold readStep. rewrite string_app_assoc.
  change (NL +:+ NL) with NN. rewrite HasSuffix_app.
  unfold NN. rewrite (Split_LF_line _ _ Hline).
  change (Split_LF (String LF EmptyString)) with [EmptyString; EmptyString].
  cbn [foldl]. by rewrite !dispatchLine_blank.
Qed.

Lemma ReadString_lines_event (p rest : string) :
  noLF p = true ->
  ReadString_lines (sse_event p +:+ rest)
  = ["data:" +:+ p +:+ NL; NL] ++ ReadString_lines rest.
Proof.
  intros Hp.
  assert (noLF ("data:" +:+ p) = true) as Hline by (rewrite noLF_app, Hp; done).
  unfold sse_event, ReadString_lines at 1.
  replace (("data:" +:+ p +:+ NL +:+ NL) +:+ rest)
    with (("data:" +:+ p) +:+ NL +:+ ("" +:+ NL +:+ rest)).
  2:{ by rewrite !string_app_nil_l, !string_app_assoc. }
  rewrite (ReadString_from_line _ _ _ Hline). unfold ReadString_lines.
  rewrite (ReadString_from_line "" _ _ eq_refl).
  by rewrite !string_app_nil_l, string_app_assoc.
Qed.

Lemma events_fold (ps : list string) (c : Conn) (k : nat) :
  uuid_calls c = k -> time_calls c = k ->
  Forall (fun p => noLF p = true) ps ->
  exists c',
    foldl (readStep w modelId) (EmptyString, c) (ReadString_lines (sse_stream ps))
    = (EmptyString, c')
    /\ written c'
       = written c
         ++ spec_stream_events w modelId k
              ((fun p => Unmarshal_RaycastSSEData (TrimSpace p)) <$> ps).
Proof.
  intros Hu Ht Hps. revert c k Hu Ht.
  induction Hps as [|p ps Hp _ IH]; intros c k Hu Ht.
  - exists c. simpl. by rewrite app_nil_r.
  - cbn [sse_stream foldr]. rewrite (ReadString_lines_event _ _ Hp), foldl_app.
    rewrite (readStep_event_any _ _ Hp), dispatchLine_data_any.
    cbn [fmap list_fmap spec_stream_events].
    destruct (Unmarshal_RaycastSSEData (TrimSpace p)) as [d|].
    + match goal with
      | |- context [foldl _ (_, ?c1) _] =>
          destruct (IH c1 (S k)) as (c' & Hf & Hw); [simpl; lia|simpl; lia|]
      end.
      exists c'. split; [exact Hf|]. rewrite Hw. simpl.
      rewrite <- app_assoc. simpl. do 2 f_equal.
      unfold makeChunk, chunk_at. by rewrite Hu, Ht.
    + apply (IH _ k Hu Ht).
Qed.

(** X2: for a stream of any number of events, each a [data:] line and a
    blank line, the handler writes one chunk for every event whose payload
    parses as an event, in the order of the stream and numbered by the
    draws, and nothing for an event whose payload does not parse; such an
    event does not stop the stream. *)
Theorem events_give_chunks_in_order (ps : list string) :
  Forall (fun p => noLF p = true) ps ->
  written (handleStreamingResponse w modelId Conn_start (sse_stream ps))
  = spec_stream_events w modelId 0
      ((fun p => Unmarshal_RaycastSSEData (TrimSpace p)) <$> ps)
    ++ [DoneEvent; FlushEvent].
Proof.
  intros Hps. unfold handleStreamingResponse.
  destruct (events_fold ps Conn_start 0 eq_refl eq_refl Hps) as (c' & -> & Hw).
  simpl. by rewrite Hw.
Qed.

(** ** Lines that end with a carriage return *)

Lemma crlf_lines_quiet (ls : list string) (partial : string) :
  Forall (fun l => noLF l = true) ls ->
  noLF partial = true ->
  Forall quiet (ReadString_lines (joinCRLF ls +:+ partial)).
Proof.
  intros Hls Hpartial. unfold ReadString_lines.
  induction Hls as [|l ls Hl _ IH].
  - simpl. rewrite string_app_nil_l, ReadString_from_noLF by done. constructor.
  - change (joinCRLF (l :: ls)) with (l +:+ CRLF +:+ joinCRLF ls). unfold CRLF.
    replace ((l +:+ String CR NL +:+ joinCRLF ls) +:+ partial)
      with ((l +:+ String CR "") +:+ NL +:+ (joinCRLF ls +:+ partial)).
    2:{ by rewrite !string_app_assoc. }
    assert (noLF (l +:+ String CR "") = true) as Hcr by (by rewrite noLF_app, Hl).
    rewrite (ReadString_from_line _ _ _ Hcr).
    constructor; [|exact IH].
    rewrite string_app_nil_l. split.
    + rewrite !string_length_app. simpl. lia.
    + by apply HasSuffix_line.
Qed.

(** X3: a stream whose lines all end with a carriage return and a line
    feed never completes a group, since the buffer never ends with two line
    feeds: the handler writes no chunk, only the sentinel and its flush. *)
Theorem crlf_stream_gives_no_chunk (c : Conn) (ls : list string) (partial : string) :
  Forall (fun l => noLF l = true) ls ->
  noLF partial = true ->
  handleStreamingResponse w modelId c (joinCRLF ls +:+ partial)
  = emit [DoneEvent; FlushEvent] c.
Proof.
  intros Hls Hpartial. unfold handleStreamingResponse.
  pose proof (readStep_quiet w modelId _ (EmptyString, c)
                (crlf_lines_quiet ls partial Hls Hpartial)) as H.
  destruct (foldl _ _ _) as [buffer c1]. simpl in H. by subst.
Qed.

End StreamingShape.

(** ** The scan loop of [parseSSEResponse] *)

Lemma scanLine_lineText (fullText line : string) :
  scanLine fullText line = fullText +:+ lineText line.
Proof.
  unfold scanLine, lineText.
  destruct (String.eqb_spec line "") as [->|_].
  - by rewrite string_app_empty_r.
  - destruct (HasPrefix line "data:"); [|by rewrite string_app_empty_r].
    destruct (extractFragment _); simpl; [done|by rewrite string_app_empty_r].
Qed.

Lemma foldl_scanLine (lines : list string) (fullText : string) :
  foldl scanLine fullText lines = fullText +:+ concatText (lineText <$> lines).
Proof.
  revert fullText. induction lines as [|l lines IH]; intros fullText; simpl.
  - by rewrite string_app_empty_r.
  - by rewrite IH, scanLine_lineText, string_app_assoc.
Qed.

Lemma concatText_app (a b : list string) :
  concatText (a ++ b) = concatText a +:+ concatText b.
Proof.
  induction a as [|x a IH]; simpl; [done|]. by rewrite IH, string_app_assoc.
Qed.

(** ** White space *)

Lemma is_byte_wsByte (n : N) (c : ascii) :
  is_byte n c = true -> (128 <=? n)%N = true -> wsByte c = true.
Proof.
  unfold is_byte, wsByte. intros Hc Hn. apply N.eqb_eq in Hc. rewrite Hc, Hn.
  apply orb_true_r.
Qed.

Lemma in_range_wsByte (lo hi : N) (c : ascii) :
  in_range lo hi c = true -> (128 <=? lo)%N = true -> wsByte c = true.
Proof.
  unfold in_range, wsByte. intros Hc Hn. apply andb_true_iff in Hc as [Hc _].
  apply N.leb_le in Hc, Hn. apply orb_true_iff. right. apply N.leb_le. lia.
Qed.

Lemma isSpace1_wsByte (c : ascii) : isSpace1 c = true -> wsByte c = true.
Proof. unfold wsByte. by intros ->. Qed.

Lemma isSpace2_wsByte (c1 c2 : ascii) :
  isSpace2 c1 c2 = true -> wsByte c1 = true /\ wsByte c2 = true.
Proof.
  unfold isSpace2. intros H. apply andb_true_iff in H as [H1 H2].
  apply orb_true_iff in H2.
  split; [by eapply is_byte_wsByte|]. destruct H2; by eapply is_byte_wsByte.
Qed.

Lemma isSpace3_wsByte (c1 c2 c3 : ascii) :
  isSpace3 c1 c2 c3 = true ->
  wsByte c1 = true /\ wsByte c2 = true /\ wsByte c3 = true.
Proof.
  unfold isSpace3. rewrite !orb_true_iff, !andb_true_iff, !orb_true_iff.
  intros [[[[[H1 H2] H3]|[[H1 H2] H3]]|[[H1 H2] H3]]|[[H1 H2] H3]].
  - repeat split; by eapply is_byte_wsByte.
  - repeat split; try by eapply is_byte_wsByte.
    destruct H3 as [[[H3|H3]|H3]|H3];
      [by eapply in_range_wsByte|by eapply is_byte_wsByte..].
  - repeat split; by eapply is_byte_wsByte.
  - repeat split; by eapply is_byte_wsByte.
Qed.

Lemma wsBytes_cons (c : ascii) (s : string) :
  wsBytes (String c s) = wsByte c && wsBytes s.
Proof. reflexivity. Qed.

Lemma wsBytes_app (a b : string) : wsBytes (a +:+ b) = wsBytes a && wsBytes b.
Proof.
  induction a as [|c a IH]; [done|].
  by rewrite string_app_cons, !wsBytes_cons, IH, andb_assoc.
Qed.

Lemma allSpace_wsBytes_bounded (n : nat) (s : string) :
  (String.length s <= n)%nat -> allSpace s = true -> wsBytes s = true.
Proof.
  revert s. induction n as [|n IH]; intros s Hlen.
  - destruct s; [done|simpl in Hlen; lia].
  - destruct s as [|c1 r1]; [done|]. simpl in Hlen. cbn [allSpace].
    destruct (isSpace1 c1) eqn:H1.
    { intros H. rewrite wsBytes_cons, (isSpace1_wsByte _ H1). apply IH; [lia|done]. }
    destruct r1 as [|c2 r2]; [discriminate|]. simpl in Hlen.
    destruct (isSpace2 c1 c2) eqn:H2.
    { intros H. rewrite !wsBytes_cons. destruct (isSpace2_wsByte _ _ H2) as [-> ->].
      apply IH; [lia|done]. }
    destruct r2 as [|c3 r3]; [discriminate|]. simpl in Hlen.
    destruct (isSpace3 c1 c2 c3) eqn:H3; [|discriminate].
    intros H. rewrite !wsBytes_cons.
    destruct (isSpace3_wsByte _ _ _ H3) as (-> & -> & ->).
    apply IH; [lia|done].
Qed.

Lemma TrimLeftSpace_wsBytes_bounded (n : nat) (s : string) :
  (String.length s <= n)%nat -> wsBytes (TrimLeftSpace s) = true -> wsBytes s = true.
Proof.
  revert s. induction n as [|n IH]; intros s Hlen.
  - destruct s; [done|simpl in Hlen; lia].
  - destruct s as [|c1 r1]; [done|]. simpl in Hlen.
    cbn [TrimLeftSpace].
    destruct (isSpace1 c1) eqn:H1.
    { intros H. rewrite wsBytes_cons, (isSpace1_wsByte _ H1). apply IH; [lia|done]. }
    destruct r1 as [|c2 r2]; [done|]. simpl in Hlen.
    destruct (isSpace2 c1 c2) eqn:H2.
    { intros H. rewrite !wsBytes_cons. destruct (isSpace2_wsByte _ _ H2) as [-> ->].
      apply IH; [lia|done]. }
    destruct r2 as [|c3 r3]; [done|]. simpl in Hlen.
    destruct (isSpace3 c1 c2 c3) eqn:H3; [|done].
    intros H. rewrite !wsBytes_cons. destruct (isSpace3_wsByte _ _ _ H3) as (-> & -> & ->).
    apply IH; [lia|done].
Qed.

Lemma TrimRightSpace_empty (s : string) :
  TrimRightSpace s = "" -> allSpace s = true.
Proof.
  destruct s as [|c s]; [done|].
  cbn [TrimRightSpace]. by destruct (allSpace (String c s)).
Qed.

Lemma TrimSpace_empty_wsBytes (s : string) :
  TrimSpace s = "" -> wsBytes s = true.
Proof.
  unfold TrimSpace. intros H.
  apply (TrimLeftSpace_wsBytes_bounded (String.length s)); [done|].
  apply (allSpace_wsBytes_bounded (String.length (TrimLeftSpace s))); [done|].
  by apply TrimRightSpace_empty.
Qed.

Lemma raw_lines_wsBytes (input line : string) :
  wsBytes line = true -> wsBytes input = true ->
  Forall (fun l => wsBytes l = true) (raw_lines_from line input).
Proof.
  revert line. induction input as [|c input IH]; intros line Hline Hin.
  - simpl. destruct line; by repeat constructor.
  - rewrite wsBytes_cons in Hin. apply andb_true_iff in Hin as [Hc Hin]. simpl.
    destruct (Ascii.eqb c LF).
    + constructor; [done|]. by apply IH.
    + apply IH; [|done]. by rewrite wsBytes_app, Hline, wsBytes_cons, Hc.
Qed.

Lemma fitting_Forall (P : string -> Prop) (lines : list string) :
  Forall P lines -> Forall P (fitting lines).
Proof.
  induction 1 as [|l lines Hl _ IH]; simpl; [constructor|].
  destruct (_ <? _)%N; by constructor.
Qed.

Lemma dropCR_wsBytes (line : string) :
  wsBytes line = true -> wsBytes (dropCR line) = true.
Proof.
  induction line as [|c line IH]; [done|].
  rewrite wsBytes_cons. intros H. apply andb_true_iff in H as [Hc Hline].
  cbn [dropCR]. destruct line as [|c' line'].
  - destruct (Ascii.eqb c CR); [done|]. by rewrite wsBytes_cons, Hc.
  - rewrite wsBytes_cons, Hc. by apply IH.
Qed.

Lemma lineText_wsBytes (line : string) :
  wsBytes line = true -> lineText line = "".
Proof.
  destruct line as [|c line]; [done|].
  rewrite wsBytes_cons. intros H. apply andb_true_iff in H as [Hc _].
  unfold lineText, HasPrefix. cbn [strip_prefix].
  destruct (Ascii.eqb_spec c "d") as [->|_]; [discriminate|done].
Qed.

Lemma concatText_wsBytes (lines : list string) :
  Forall (fun l => wsBytes l = true) lines -> concatText (lineText <$> lines) = "".
Proof.
  induction 1 as [|l ls Hl _ IH]; [done|].
  rewrite fmap_cons. unfold concatText in *. cbn [foldr].
  by rewrite (lineText_wsBytes _ Hl), IH.
Qed.

(** X4: [parseSSEResponse] returns the texts that its scan loop finds in
    the scanned lines, one after the other, for every input: the early
    return on a response of white space changes no result. *)
Theorem parseSSEResponse_is_the_scan (responseText : string) :
  parseSSEResponse responseText
  = concatText (lineText <$> Scanner_lines responseText).
Proof.
  unfold parseSSEResponse. rewrite foldl_scanLine, string_app_nil_l.
  destruct (String.eqb_spec (TrimSpace responseText) "") as [He|_]; [|done].
  apply TrimSpace_empty_wsBytes in He.
  symmetry. apply concatText_wsBytes.
  unfold Scanner_lines. apply Forall_fmap.
  eapply Forall_impl; [apply fitting_Forall, (raw_lines_wsBytes _ "" eq_refl He)|].
  intros l Hl. by apply dropCR_wsBytes.
Qed.

(** ** Scanned lines *)

Lemma joinLines_cons (l : string) (ls : list string) :
  joinLines (l :: ls) = l +:+ NL +:+ joinLines ls.
Proof. reflexivity. Qed.

Lemma joinLines_app (a b : list string) :
  joinLines (a ++ b) = joinLines a +:+ joinLines b.
Proof.
  induction a as [|l a IH]; [done|].
  by rewrite <- app_comm_cons, !joinLines_cons, IH, !string_app_assoc.
Qed.

Lemma raw_lines_from_line (l line rest : string) :
  noLF l = true ->
  raw_lines_from line (l +:+ NL +:+ rest) = (line +:+ l) :: raw_lines_from "" rest.
Proof.
  revert line. induction l as [|c l IH]; intros line Hl.
  - by rewrite string_app_empty_r.
  - simpl in Hl. apply andb_true_iff in Hl as [Hc Hl].
    apply negb_true_iff in Hc.
    rewrite string_app_cons. simpl. rewrite Hc.
    rewrite IH by done. by rewrite string_app_assoc.
Qed.

Lemma raw_lines_joinLines (ls : list string) (rest : string) :
  Forall (fun l => noLF l = true) ls ->
  raw_lines_from "" (joinLines ls +:+ rest) = ls ++ raw_lines_from "" rest.
Proof.
  induction 1 as [|l ls Hl _ IH]; [done|].
  rewrite joinLines_cons, !string_app_assoc, (raw_lines_from_line _ _ _ Hl).
  by rewrite string_app_nil_l, IH.
Qed.

Lemma fitting_all (ls : list string) :
  Forall (fun l => fits l = true) ls -> fitting ls = ls.
Proof.
  induction 1 as [|l ls Hl _ IH]; [done|].
  simpl. unfold fits in Hl. by rewrite Hl, IH.
Qed.

Lemma fitting_cut (ls : list string) (long : string) (rest : list string) :
  Forall (fun l => fits l = true) ls -> fits long = false ->
  fitting (ls ++ long :: rest) = ls.
Proof.
  intros Hls Hlong. induction Hls as [|l ls Hl _ IH].
  - simpl. unfold fits in Hlong. by rewrite Hlong.
  - simpl. unfold fits in Hl. by rewrite Hl, IH.
Qed.

Lemma dropCR_snoc (l : string) : dropCR (l +:+ String CR "") = l.
Proof.
  induction l as [|c l IH]; [done|].
  rewrite string_app_cons. cbn [dropCR].
  destruct l as [|c' l']; [done|].
  rewrite string_app_cons in *. by rewrite IH.
Qed.

(** X5: for a response made of complete lines that fit the scanner,
    [parseSSEResponse] is the concatenation, in line order, of what each
    line gives after its trailing carriage return is dropped. *)
Theorem lines_text_in_order (ls : list string) :
  Forall (fun l => noLF l = true /\ fits l = true) ls ->
  parseSSEResponse (joinLines ls)
  = concatText ((fun l => lineText (dropCR l)) <$> ls).
Proof.
  intros Hls. rewrite parseSSEResponse_is_the_scan. unfold Scanner_lines.
  rewrite <- (string_app_empty_r (joinLines ls)).
  rewrite raw_lines_joinLines by (eapply Forall_impl; [exact Hls|by intros ? []]).
  simpl. rewrite app_nil_r.
  rewrite fitting_all by (eapply Forall_impl; [exact Hls|by intros ? []]).
  by rewrite <- list_fmap_compose.
Qed.

(** X6: the text of two blocks of complete lines, one after the other, is
    the text of the first followed by the text of the second. *)
Theorem parseSSEResponse_of_blocks (a b : list string) :
  Forall (fun l => noLF l = true /\ fits l = true) a ->
  Forall (fun l => noLF l = true /\ fits l = true) b ->
  parseSSEResponse (joinLines a +:+ joinLines b)
  = parseSSEResponse (joinLines a) +:+ parseSSEResponse (joinLines b).
Proof.
  intros Ha Hb. rewrite <- joinLines_app.
  rewrite !lines_text_in_order by (try apply Forall_app; done).
  by rewrite fmap_app, concatText_app.
Qed.

(** X7: a line of 65536 bytes or more ends the scan: the scanner stops
    with an error that [parseSSEResponse] does not look at, and the result is
    the text of the lines before it, whatever follows. *)
Theorem long_line_ends_the_scan (ls : list string) (long rest : string) :
  Forall (fun l => noLF l = true /\ fits l = true) ls ->
  noLF long = true -> fits long = false ->
  parseSSEResponse (joinLines ls +:+ long +:+ NL +:+ rest)
  = parseSSEResponse (joinLines ls).
Proof.
  intros Hls Hnl Hlong. rewrite (lines_text_in_order _ Hls).
  rewrite parseSSEResponse_is_the_scan. unfold Scanner_lines.
  rewrite raw_lines_joinLines by (eapply Forall_impl; [exact Hls|by intros ? []]).
  rewrite (raw_lines_from_line _ _ _ Hnl), string_app_nil_l.
  rewrite fitting_cut; [|eapply Forall_impl; [exact Hls|by intros ? []]|done].
  by rewrite <- list_fmap_compose.
Qed.

Lemma raw_lines_joinCRLF (ls : list string) :
  Forall (fun l => noLF l = true) ls ->
  raw_lines_from "" (joinCRLF ls) = (fun l => l +:+ String CR "") <$> ls.
Proof.
  induction 1 as [|l ls Hl _ IH]; [done|].
  change (joinCRLF (l :: ls)) with (l +:+ CRLF +:+ joinCRLF ls). unfold CRLF.
  replace (l +:+ String CR NL +:+ joinCRLF ls)
    with ((l +:+ String CR "") +:+ NL +:+ joinCRLF ls)
    by (by rewrite !string_app_assoc).
  rewrite raw_lines_from_line by (by rewrite noLF_app, Hl).
  by rewrite string_app_nil_l, IH.
Qed.

(** X8: in the non-streaming path lines that end with a carriage return
    and a line feed are read like lines that end with a line feed: the text
    is the concatenation of what each line gives. *)
Theorem crlf_lines_text_in_order (ls : list string) :
  Forall (fun l => noLF l = true /\ fits (l +:+ String CR "") = true) ls ->
  parseSSEResponse (joinCRLF ls) = concatText (lineText <$> ls).
Proof.
  intros Hls. rewrite parseSSEResponse_is_the_scan. unfold Scanner_lines.
  rewrite raw_lines_joinCRLF by (eapply Forall_impl; [exact Hls|by intros ? []]).
  rewrite fitting_all.
  2:{ rewrite Forall_fmap. eapply Forall_impl; [exact Hls|by intros ? []]. }
  rewrite <- !list_fmap_compose. f_equal. apply list_fmap_ext.
  intros i l _. simpl. by rewrite dropCR_snoc.
Qed.

(** ** The text of the document *)

Lemma resolveFullText_order (bodyBytes : string) :
  resolveFullText bodyBytes
  = spec_first_nonempty
      [Some (parseSSEResponse bodyBytes);
       Some (bodyFallbackText bodyBytes);
       Some placeholderText].
Proof.
  unfold resolveFullText, bodyFallbackText, spec_first_nonempty.
  destruct (decide (placeholderText = "")) as [H|_];
    [by apply placeholderText_nonempty in H|].
  destruct (String.eqb_spec (parseSSEResponse bodyBytes) "") as [He|Hne];
    destruct (decide (parseSSEResponse bodyBytes = "")); try done.
  destruct (Unmarshal_map bodyBytes) as [m|].
  - destruct (String.eqb_spec (extractTextFromJSON m) "") as [Hm|Hm];
      destruct (decide (extractTextFromJSON m = "")); try done.
    + by rewrite He.
    + by destruct (String.eqb_spec (extractTextFromJSON m) "").
  - rewrite He. by destruct (decide ("" = "")).
Qed.

(** X9: for every body read, the handler answers with a document whose
    message content is the first non-empty one of the text of the events,
    the text of the whole-body JSON fallback and the placeholder; it never is
    the empty string. *)
Theorem document_text_resolution (w : World) (c : Conn) (bodyBytes modelId : string) :
  exists doc,
    handleNonStreamingResponse w c (ReadOK bodyBytes) modelId = ReplyDocument doc
    /\ doc_contents doc
       = [spec_first_nonempty
            [Some (parseSSEResponse bodyBytes);
             Some (bodyFallbackText bodyBytes);
             Some placeholderText]]
    /\ doc_contents doc <> [""].
Proof.
  eexists. split; [reflexivity|].
  unfold doc_contents. simpl. split; [by rewrite resolveFullText_order|].
  intros [= H]. by apply resolveFullText_nonempty in H.
Qed.

(** ** The fields of the bound request *)

Lemma take_string_rest (k0 k : string) (rawMap : gmap string value) :
  (take_string k0 rawMap).2 !! k
  = if String.eqb k k0 && isVString (rawMap !! k0) then None else rawMap !! k.
Proof.
  unfold take_string.
  destruct (String.eqb_spec k k0) as [->|Hk].
  - destruct (rawMap !! k0) as [[]|] eqn:E; simpl; rewrite ?E; try done.
    by rewrite lookup_delete_eq.
  - destruct (rawMap !! k0) as [[]|] eqn:E; simpl; try done.
    by rewrite lookup_delete_ne.
Qed.

Lemma take_float64_rest (k0 k : string) (rawMap : gmap string value) :
  (take_float64 k0 rawMap).2 !! k
  = if String.eqb k k0 && isVFloat64 (rawMap !! k0) then None else rawMap !! k.
Proof.
  unfold take_float64.
  destruct (String.eqb_spec k k0) as [->|Hk].
  - destruct (rawMap !! k0) as [[]|] eqn:E; simpl; rewrite ?E; try done.
    by rewrite lookup_delete_eq.
  - destruct (rawMap !! k0) as [[]|] eqn:E; simpl; try done.
    by rewrite lookup_delete_ne.
Qed.

Lemma take_bool_rest (k0 k : string) (rawMap : gmap string value) :
  (take_bool k0 rawMap).2 !! k
  = if String.eqb k k0 && isVBool (rawMap !! k0) then None else rawMap !! k.
Proof.
  unfold take_bool.
  destruct (String.eqb_spec k k0) as [->|Hk].
  - destruct (rawMap !! k0) as [[]|] eqn:E; simpl; rewrite ?E; try done.
    by rewrite lookup_delete_eq.
  - destruct (rawMap !! k0) as [[]|] eqn:E; simpl; try done.
    by rewrite lookup_delete_ne.
Qed.

Lemma take_string_value (k : string) (rawMap : gmap string value) :
  (take_string k rawMap).1
  = match rawMap !! k with Some (VString v) => Some v | _ => None end.
Proof. unfold take_string. by destruct (rawMap !! k) as [[]|]. Qed.

Lemma take_bool_value (k : string) (rawMap : gmap string value) :
  (take_bool k rawMap).1
  = match rawMap !! k with Some (VBool v) => Some v | _ => None end.
Proof. unfold take_bool. by destruct (rawMap !! k) as [[]|]. Qed.

Lemma take_messages_rest (rawMap rawMap' : gmap string value)
    (ms : list OpenAIMessage.t) (k : string) :
  take_messages rawMap = Some (ms, rawMap') ->
  rawMap' !! k = if String.eqb k "messages" then None else rawMap !! k.
Proof.
  unfold take_messages. intros H.
  destruct (String.eqb_spec k "messages") as [->|Hk].
  - destruct (rawMap !! "messages") as [v|] eqn:E; simplify_option_eq; [|done].
    by rewrite lookup_delete_eq.
  - destruct (rawMap !! "messages") as [v|]; simplify_option_eq; [|done].
    by rewrite lookup_delete_ne.
Qed.

Section Binding.
Variable int_unrepresentable : float64 -> Z.

(** The bound request, field by field, from the raw map. *)
Lemma UnmarshalJSON_fields (data : string) (rawMap : gmap string value)
    (body : OpenAIChatRequest.t) :
  Unmarshal_map data = Some rawMap ->
  UnmarshalJSON int_unrepresentable data = Some body ->
  (exists rest, take_messages rawMap = Some (OpenAIChatRequest.Messages body, rest))
  /\ OpenAIChatRequest.Model body
     = match rawMap !! "model" with Some (VString v) => v | _ => "" end
  /\ OpenAIChatRequest.Stream body
     = match rawMap !! "stream" with Some (VBool v) => v | _ => false end
  /\ OpenAIChatRequest.MaxTokens body
     = match rawMap !! "max_tokens" with
       | Some (VFloat64 v) => int_of_float64 int_unrepresentable v
       | _ => 0%Z
       end
  /\ forall k, OpenAIChatRequest.Extra body !! k = spec_extra rawMap k.
Proof.
  intros Hraw. unfold UnmarshalJSON. rewrite Hraw. simpl.
  destruct (take_messages rawMap) as [[ms rawMap1]|] eqn:Hms; simpl; [|discriminate].
  pose proof (fun k => take_messages_rest _ _ _ k Hms) as R1.
  pose proof (take_string_value "model" rawMap1) as V2.
  pose proof (take_string_rest "model") as R2. specialize (fun k => R2 k rawMap1).
  destruct (take_string "model" rawMap1) as [model rawMap2].
  pose proof (take_float64_rest "temperature") as R3. specialize (fun k => R3 k rawMap2).
  destruct (take_float64 "temperature" rawMap2) as [t rawMap3].
  pose proof (take_bool_value "stream" rawMap3) as V4.
  pose proof (take_bool_rest "stream") as R4. specialize (fun k => R4 k rawMap3).
  destruct (take_bool "stream" rawMap3) as [stream rawMap4].
  pose proof (take_string_value "system" rawMap4) as V5.
  pose proof (take_string_rest "system") as R5. specialize (fun k => R5 k rawMap4).
  destruct (take_string "system" rawMap4) as [system rawMap5].
  pose proof (take_float64_value "max_tokens" rawMap5) as V6.
  pose proof (take_float64_rest "max_tokens") as R6. specialize (fun k => R6 k rawMap5).
  destruct (take_float64 "max_tokens" rawMap5) as [maxTokens rawMap6].
  pose proof (take_float64_rest "top_p") as R7. specialize (fun k => R7 k rawMap6).
  destruct (take_float64 "top_p" rawMap6) as [topP rawMap7].
  pose proof (take_float64_rest "frequency_penalty") as R8.
  specialize (fun k => R8 k rawMap7).
  destruct (take_float64 "frequency_penalty" rawMap7) as [fp rawMap8].
  pose proof (take_float64_rest "presence_penalty") as R9.
  specialize (fun k => R9 k rawMap8).
  destruct (take_float64 "presence_penalty" rawMap8) as [pp rawMap9].
  intros [= <-]. cbn [OpenAIChatRequest.Messages OpenAIChatRequest.Model
    OpenAIChatRequest.Stream OpenAIChatRequest.MaxTokens OpenAIChatRequest.Extra
    fst snd] in *.
  subst model stream system maxTokens.
  split; [by eexists|].
  split. { rewrite ?R1. simpl. by destruct (rawMap !! "model") as [[]|]. }
  split. { rewrite ?R3, ?R2, ?R1. simpl. by destruct (rawMap !! "stream") as [[]|]. }
  split. { rewrite ?R5, ?R4, ?R3, ?R2, ?R1. simpl.
           by destruct (rawMap !! "max_tokens") as [[]|]. }
  intros k. rewrite lookup_union.
  rewrite ?R9, ?R8, ?R7, ?R6, ?R5, ?R4, ?R3, ?R2, ?R1. simpl.
  unfold spec_extra, fieldTaken.
  destruct (String.eqb_spec k "messages") as [->|?].
  { simpl. destruct (rawMap !! "system") as [[]|]; simpl; try done. }
  assert (forall v : string,
            (<["system" := VString v]> (∅ : gmap string value)) !! k
            = if String.eqb k "system" then Some (VString v) else None) as Hsys.
  { intros v. rewrite lookup_insert.
    destruct (String.eqb_spec k "system") as [->|?]; by case_decide. }
  destruct (String.eqb_spec k "presence_penalty") as [->|?].
  { simpl. destruct (rawMap !! "system") as [[]|]; simpl;
      destruct (rawMap !! "presence_penalty") as [[]|]; done. }
  destruct (String.eqb_spec k "frequency_penalty") as [->|?].
  { simpl. destruct (rawMap !! "system") as [[]|]; simpl;
      destruct (rawMap !! "frequency_penalty") as [[]|]; done. }
  destruct (String.eqb_spec k "top_p") as [->|?].
  { simpl. destruct (rawMap !! "system") as [[]|]; simpl;
      destruct (rawMap !! "top_p") as [[]|]; done. }
  destruct (String.eqb_spec k "max_tokens") as [->|?].
  { simpl. destruct (rawMap !! "system") as [[]|]; simpl;
      destruct (rawMap !! "max_tokens") as [[]|]; done. }
  destruct (String.eqb_spec k "system") as [->|?].
  { simpl. destruct (rawMap !! "system") as [[]|]; simpl; done. }
  destruct (String.eqb_spec k "stream") as [->|?].
  { simpl. destruct (rawMap !! "system") as [[]|]; simpl;
      destruct (rawMap !! "stream") as [[]|]; done. }
  destruct (String.eqb_spec k "temperature") as [->|?].
  { simpl. destruct (rawMap !! "system") as [[]|]; simpl;
      destruct (rawMap !! "temperature") as [[]|]; done. }
  destruct (String.eqb_spec k "model") as [->|?].
  { simpl. destruct (rawMap !! "system") as [[]|]; simpl;
      destruct (rawMap !! "model") as [[]|]; done. }
  simpl.
  destruct (rawMap !! "system") as [[]|]; rewrite ?Hsys, ?lookup_empty;
    destruct (String.eqb_spec k "system"); try done;
    by destruct (rawMap !! k).
Qed.
End Binding.

Section BindingErrors.
Variable int_unrepresentable : float64 -> Z.

(** X10: [UnmarshalJSON] returns an error exactly when the data is neither
    a JSON object nor [null], or holds a number out of range, or when its
    [messages] field does not decode as a list of messages; a known field of
    another type than expected is no error. *)
Theorem UnmarshalJSON_fails_iff (data : string) :
  UnmarshalJSON int_unrepresentable data = None
  <-> Unmarshal_map data = None
      \/ exists rawMap v,
           Unmarshal_map data = Some rawMap
           /\ rawMap !! "messages" = Some v
           /\ OpenAIMessages_of_value v = None.
Proof.
  unfold UnmarshalJSON.
  destruct (Unmarshal_map data) as [rawMap|]; simpl; [|by split; [left|]].
  unfold take_messages.
  destruct (rawMap !! "messages") as [v|] eqn:Hv; simpl.
  - destruct (OpenAIMessages_of_value v) as [ms|] eqn:Hms; simpl.
    + repeat (match goal with |- context [take_string ?k ?m] =>
                destruct (take_string k m) end
              || match goal with |- context [take_float64 ?k ?m] =>
                destruct (take_float64 k m) end
              || match goal with |- context [take_bool ?k ?m] =>
                destruct (take_bool k m) end).
      split; [discriminate|].
      intros [?|(rawMap' & v' & [= <-] & Hv' & Hnone)]; [done|]. congruence.
    + split; [|done]. intros _. right. by exists rawMap, v.
  - repeat (match goal with |- context [take_string ?k ?m] =>
              destruct (take_string k m) end
            || match goal with |- context [take_float64 ?k ?m] =>
              destruct (take_float64 k m) end
            || match goal with |- context [take_bool ?k ?m] =>
              destruct (take_bool k m) end).
    split; [discriminate|].
    intros [?|(rawMap' & v' & [= <-] & Hv' & _)]; [done|]. congruence.
Qed.

(** X11: [Extra] holds every field of the request except [messages] and
    except the fields [model], [stream], [temperature], [max_tokens],
    [top_p], [frequency_penalty] and [presence_penalty] when they have the
    expected type; an unknown field, a known field of another type, and
    [system] are found in [Extra] with their value. *)
Theorem Extra_keeps_what_is_not_taken (data : string) (rawMap : gmap string value)
    (body : OpenAIChatRequest.t) (k : string) :
  Unmarshal_map data = Some rawMap ->
  UnmarshalJSON int_unrepresentable data = Some body ->
  OpenAIChatRequest.Extra body !! k = spec_extra rawMap k.
Proof.
  intros Hraw Hbody.
  by destruct (UnmarshalJSON_fields _ _ _ _ Hraw Hbody) as (_ & _ & _ & _ & ->).
Qed.

End BindingErrors.

Section Requests.
Variable DefaultModel : string.
Variable Models : Type.
Variable getProviderInfo : string -> Models -> string * string.
Variable bindErrorText : string -> string.
Variable int_unrepresentable : float64 -> Z.

(** What a request that goes upstream is made of. *)
Lemma handleChatCompletions_Upstream (w : World) (c : Conn) (models : Models)
    (data : string) (requestBody : RequestBody) (stream : bool) (model : string) :
  handleChatCompletions DefaultModel Models getProviderInfo bindErrorText
    int_unrepresentable w c models data = Upstream requestBody stream model ->
  exists body,
    UnmarshalJSON int_unrepresentable data = Some body
    /\ OpenAIChatRequest.Messages body <> []
    /\ model = (if String.eqb (OpenAIChatRequest.Model body) "" then DefaultModel
                else OpenAIChatRequest.Model body)
    /\ stream = OpenAIChatRequest.Stream body
    /\ (RaycastChatRequest.Provider (request requestBody),
        RaycastChatRequest.Model (request requestBody))
       = getProviderInfo model models
    /\ RaycastChatRequest.Messages (request requestBody)
       = convertMessages (OpenAIChatRequest.Messages body)
    /\ RaycastChatRequest.SystemInstruction (request requestBody)
       = match nonEmptyString (OpenAIChatRequest.Extra body !! "system") with
         | Some sysPrompt => sysPrompt
         | None => "markdown"
         end
    /\ RaycastChatRequest.ThreadID (request requestBody)
       = uuid_New_String w (uuid_calls c)
    /\ max_tokens requestBody
       = (if (0 <? OpenAIChatRequest.MaxTokens body)%Z
          then Some (OpenAIChatRequest.MaxTokens body) else None).
Proof.
  unfold handleChatCompletions.
  destruct (UnmarshalJSON int_unrepresentable data) as [body|]; [|discriminate].
  destruct (OpenAIChatRequest.Messages body) as [|m ms] eqn:Hms; [discriminate|].
  simpl.
  destruct (getProviderInfo _ models) as [provider modelName] eqn:Hp.
  intros [= <- <- <-]. exists body. rewrite Hms, Hp.
  repeat split; try done.
  all: by destruct (0 <? OpenAIChatRequest.MaxTokens body)%Z.
Qed.

(** X12: a request whose [messages] field is absent, [null] or the empty
    array is rejected with status 400 and the error
    [Missing or invalid 'messages' field] of type [invalid_request_error]. *)
Theorem request_without_messages_is_rejected (w : World) (c : Conn)
    (models : Models) (data : string) (rawMap : gmap string value) :
  Unmarshal_map data = Some rawMap ->
  rawMap !! "messages" = None \/ rawMap !! "messages" = Some VNil
  \/ rawMap !! "messages" = Some (VSlice []) ->
  handleChatCompletions DefaultModel Models getProviderInfo bindErrorText
    int_unrepresentable w c models data
  = Rejected 400
      {| ErrorResponse.Message := "Missing or invalid 'messages' field";
         ErrorResponse.Type_ := "invalid_request_error";
         ErrorResponse.Details := "" |}.
Proof.
  intros Hraw Hm. unfold handleChatCompletions.
  destruct (UnmarshalJSON int_unrepresentable data) as [body|] eqn:Hbody.
  - destruct (UnmarshalJSON_fields _ _ _ _ Hraw Hbody) as ([rest Hms] & _).
    unfold take_messages in Hms.
    assert (OpenAIChatRequest.Messages body = []) as ->; [|done].
    destruct Hm as [Hm|[Hm|Hm]]; rewrite Hm in Hms; simpl in Hms; congruence.
  - apply UnmarshalJSON_fails_iff in Hbody as [?|(rawMap' & v & ? & Hv & Hnone)];
      [congruence|].
    simplify_eq. destruct Hm as [Hm|[Hm|Hm]]; rewrite Hm in Hv; simplify_eq; done.
Qed.

(** X13: a request goes upstream only when [messages] is a non-empty
    array, and the request sent has one turn per element of it, each of
    author [user] or [assistant]. *)
Theorem turns_go_upstream_one_to_one (w : World) (c : Conn) (models : Models)
    (data : string) (rawMap : gmap string value)
    (requestBody : RequestBody) (stream : bool) (model : string) :
  Unmarshal_map data = Some rawMap ->
  handleChatCompletions DefaultModel Models getProviderInfo bindErrorText
    int_unrepresentable w c models data = Upstream requestBody stream model ->
  exists items,
    rawMap !! "messages" = Some (VSlice items)
    /\ items <> []
    /\ length (RaycastChatRequest.Messages (request requestBody)) = length items
    /\ Forall (fun turn => RaycastMessage.Author turn = "user"
                           \/ RaycastMessage.Author turn = "assistant")
         (RaycastChatRequest.Messages (request requestBody)).
Proof.
  intros Hraw Hup.
  destruct (handleChatCompletions_Upstream _ _ _ _ _ _ _ Hup)
    as (body & Hbody & Hne & _ & _ & _ & Hmsgs & _).
  destruct (UnmarshalJSON_fields _ _ _ _ Hraw Hbody) as ([rest Hms] & _).
  unfold take_messages in Hms.
  destruct (rawMap !! "messages") as [v|]; [|simplify_eq; done].
  destruct (OpenAIMessages_of_value v) as [ms|] eqn:Hv; simplify_option_eq.
  destruct v as [| | | |items|]; simplify_eq/=.
  exists items. split; [done|]. apply length_mapM in Hv.
  split; [by intros ->; destruct (OpenAIChatRequest.Messages body)|].
  rewrite Hmsgs, convertMessages_fmap, length_fmap. split; [done|].
  rewrite Forall_fmap. apply Forall_forall. intros msg _. simpl.
  destruct (String.eqb _ _); auto.
Qed.

(** X14: the system instruction sent upstream is the [system] field of
    the request when that is a non-empty string, and [markdown] when the
    field is absent, empty or no string. *)
Theorem system_instruction_default (w : World) (c : Conn) (models : Models)
    (data : string) (rawMap : gmap string value)
    (requestBody : RequestBody) (stream : bool) (model : string) :
  Unmarshal_map data = Some rawMap ->
  handleChatCompletions DefaultModel Models getProviderInfo bindErrorText
    int_unrepresentable w c models data = Upstream requestBody stream model ->
  RaycastChatRequest.SystemInstruction (request requestBody)
  = match rawMap !! "system" with
    | Some (VString sysPrompt) => if decide (sysPrompt = "") then "markdown" else sysPrompt
    | _ => "markdown"
    end.
Proof.
  intros Hraw Hup.
  destruct (handleChatCompletions_Upstream _ _ _ _ _ _ _ Hup)
    as (body & Hbody & _ & _ & _ & _ & _ & -> & _).
  rewrite (Extra_keeps_what_is_not_taken _ _ _ _ _ Hraw Hbody).
  unfold spec_extra. simpl.
  destruct (rawMap !! "system") as [[| | |s| |]|]; simpl; try done.
  rewrite eqb_empty_decide. by case_bool_decide; case_decide.
Qed.

(** X15: [max_tokens] is merged into the body sent upstream exactly when
    the field is a number whose truncation toward zero is positive, and with
    the truncated value. *)
Theorem max_tokens_merged_when_positive (w : World) (c : Conn) (models : Models)
    (data : string) (rawMap : gmap string value)
    (requestBody : RequestBody) (stream : bool) (model : string) :
  Unmarshal_map data = Some rawMap ->
  handleChatCompletions DefaultModel Models getProviderInfo bindErrorText
    int_unrepresentable w c models data = Upstream requestBody stream model ->
  max_tokens requestBody
  = match rawMap !! "max_tokens" with
    | Some (VFloat64 v) =>
        if (0 <? int_of_float64 int_unrepresentable v)%Z
        then Some (int_of_float64 int_unrepresentable v) else None
    | _ => None
    end.
Proof.
  intros Hraw Hup.
  destruct (handleChatCompletions_Upstream _ _ _ _ _ _ _ Hup)
    as (body & Hbody & _ & _ & _ & _ & _ & _ & _ & ->).
  destruct (UnmarshalJSON_fields _ _ _ _ Hraw Hbody) as (_ & _ & _ & -> & _).
  by destruct (rawMap !! "max_tokens") as [[]|].
Qed.

(** X16: the model name handed to the response handlers is the [model]
    field when that is a non-empty string and the default model otherwise;
    the provider and the model sent upstream are what [getProviderInfo]
    gives for it; [stream] is false unless the field is the boolean true. *)
Theorem model_and_stream_defaults (w : World) (c : Conn) (models : Models)
    (data : string) (rawMap : gmap string value)
    (requestBody : RequestBody) (stream : bool) (model : string) :
  Unmarshal_map data = Some rawMap ->
  handleChatCompletions DefaultModel Models getProviderInfo bindErrorText
    int_unrepresentable w c models data = Upstream requestBody stream model ->
  model = match rawMap !! "model" with
          | Some (VString name) => if decide (name = "") then DefaultModel else name
          | _ => DefaultModel
          end
  /\ stream = match rawMap !! "stream" with
              | Some (VBool b) => b
              | _ => false
              end
  /\ (RaycastChatRequest.Provider (request requestBody),
      RaycastChatRequest.Model (request requestBody))
     = getProviderInfo model models.
Proof.
  intros Hraw Hup.
  destruct (handleChatCompletions_Upstream _ _ _ _ _ _ _ Hup)
    as (body & Hbody & _ & -> & -> & Hp & _).
  destruct (UnmarshalJSON_fields _ _ _ _ Hraw Hbody) as (_ & HM & HS & _).
  split; [|split; [done|exact Hp]].
  rewrite HM. destruct (rawMap !! "model") as [[| | |name| |]|]; simpl; try done.
  rewrite eqb_empty_decide. by case_bool_decide; case_decide.
Qed.

End Requests.

(** ** The message adapter on a longer conversation *)

(** X17: the adapter works turn by turn: the turns made for a conversation
    that continues another are the turns of the first followed by the turns
    of the second. *)
Theorem convertMessages_app (a b : list OpenAIMessage.t) :
  convertMessages (a ++ b) = convertMessages a ++ convertMessages b.
Proof. by rewrite !convertMessages_fmap, fmap_app. Qed.

(** ** The model listing *)

Lemma modelEntry_fields (w : World) (c : Conn) (models : list ModelInfo.t) :
  (fun e => (ModelEntry.ID e, ModelEntry.OwnedBy e, ModelEntry.Object e))
    <$> imap (modelEntry w c) models
  = (fun info => (ModelInfo.Model info, ModelInfo.Provider info, "model")) <$> models.
Proof.
  rewrite fmap_imap. unfold compose. simpl. apply imap_const.
Qed.

(** X18: the listing holds one entry per model of the cache, with the model
    as identifier, the provider as owner and the object tag [model], sorted
    by identifier in ascending bytewise order; for a cache without models
    the data is the nil slice, not an empty one. *)
Theorem handleModels_sorted_listing (w : World) (c : Conn) (models : list ModelInfo.t) :
  exists data,
    handleModels w c (inr models)
    = ModelsDocument {| OpenAIModelResponse.Object := "list";
                        OpenAIModelResponse.Data := data |}
    /\ match data with
       | None => models = []
       | Some entries =>
           models <> []
           /\ StronglySorted
                (fun a b => String.le (ModelEntry.ID a) (ModelEntry.ID b)) entries
           /\ (fun e => (ModelEntry.ID e, ModelEntry.OwnedBy e, ModelEntry.Object e))
                <$> entries
              ≡ₚ (fun info => (ModelInfo.Model info, ModelInfo.Provider info, "model"))
                   <$> models
       end.
Proof.
  destruct models as [|info models]; [by eexists|].
  eexists. split; [reflexivity|]. unfold sort_by_ID.
  assert (Transitive (fun a b => String.le (ModelEntry.ID a) (ModelEntry.ID b))).
  { intros x y z. apply transitivity. }
  assert (Total (fun a b => String.le (ModelEntry.ID a) (ModelEntry.ID b))).
  { intros x y. apply total, _. }
  split; [done|]. split; [by apply StronglySorted_merge_sort|].
  rewrite merge_sort_Permutation. by rewrite modelEntry_fields.
Qed.

Example handleModels_sample :
  handleModels sample_world Conn_start (inr sample_models)
  = ModelsDocument
      {| OpenAIModelResponse.Object := "list";
         OpenAIModelResponse.Data :=
           Some [ {| ModelEntry.ID := "claude-3"; ModelEntry.Object := "model";
                     ModelEntry.Created := 1744184396; ModelEntry.OwnedBy := "anthropic" |};
                  {| ModelEntry.ID := "gemini"; ModelEntry.Object := "model";
                     ModelEntry.Created := 1744184397; ModelEntry.OwnedBy := "google" |};
                  {| ModelEntry.ID := "gpt-4o"; ModelEntry.Object := "model";
                     ModelEntry.Created := 1744184395; ModelEntry.OwnedBy := "openai" |} ] |}
  /\ handleModels sample_world Conn_start (inr [])
     = ModelsDocument {| OpenAIModelResponse.Object := "list";
                         OpenAIModelResponse.Data := None |}.
Proof. split; vm_compute; reflexivity. Qed.

(** ** Samples for the further properties *)

Lemma events_give_chunks_in_order_witness :
  written (handleStreamingResponse sample_world "x" Conn_start
             (sse_stream [sample " {'text':'Hello'}"; " not json";
                          sample " {'content':'hi'}"]))
  = [ ChunkEvent (chunk_at sample_world "x" 0
                    {| RaycastSSEData.Text := "Hello";
                       RaycastSSEData.FinishReason := "" |});
      FlushEvent;
      ChunkEvent (chunk_at sample_world "x" 1 RaycastSSEData.zero);
      FlushEvent; DoneEvent; FlushEvent ].
Proof.
  rewrite (events_give_chunks_in_order sample_world "x");
    [vm_compute; reflexivity|].
  repeat constructor.
Defined.

Lemma crlf_stream_gives_no_chunk_witness :
  handleStreamingResponse sample_world "x" Conn_start
    (joinCRLF [sample "data: {'text':'Hello'}"; ""] +:+ "")
  = emit [DoneEvent; FlushEvent] Conn_start.
Proof.
  apply (crlf_stream_gives_no_chunk sample_world "x" Conn_start);
    repeat constructor.
Defined.

Lemma lines_text_in_order_witness :
  parseSSEResponse
    (joinLines [sample "data: {'text':'Hello'}"; ""; "event: ping";
                sample "data: {'text':' there'}" +:+ String CR ""; "data: [DONE]"])
  = "Hello there".
Proof.
  rewrite lines_text_in_order; [vm_compute; reflexivity|].
  repeat constructor.
Defined.

Lemma parseSSEResponse_of_blocks_witness :
  parseSSEResponse
    (joinLines [sample "data: {'text':'Hello'}"; ""]
     +:+ joinLines [sample "data: {'text':' there'}"; ""])
  = parseSSEResponse (joinLines [sample "data: {'text':'Hello'}"; ""])
    +:+ parseSSEResponse (joinLines [sample "data: {'text':' there'}"; ""]).
Proof. apply parseSSEResponse_of_blocks; repeat constructor. Defined.

Lemma long_line_ends_the_scan_witness :
  parseSSEResponse
    (joinLines [sample "data: {'text':'Hello'}"] +:+ sample_long_line +:+ NL
     +:+ sample "data: {'text':' there'}|")
  = parseSSEResponse (joinLines [sample "data: {'text':'Hello'}"]).
Proof.
  apply long_line_ends_the_scan;
    [repeat constructor|vm_compute; reflexivity|vm_compute; reflexivity].
Defined.

Lemma crlf_lines_text_in_order_witness :
  parseSSEResponse
    (joinCRLF [sample "data: {'text':'Hello'}"; "";
               sample "data: {'text':' there'}"; ""])
  = "Hello there".
Proof.
  rewrite crlf_lines_text_in_order; [vm_compute; reflexivity|].
  repeat constructor.
Defined.

Lemma UnmarshalJSON_fails_iff_witness :
  UnmarshalJSON (fun _ => 0%Z) (sample "{'messages':[{'role':1}]}") = None.
Proof.
  apply (UnmarshalJSON_fails_iff (fun _ => 0%Z)). right.
  eexists _, _. repeat split; vm_compute; reflexivity.
Defined.

Lemma Extra_keeps_what_is_not_taken_witness :
  exists body,
    UnmarshalJSON (fun _ => 0%Z) sample_full_request = Some body
    /\ OpenAIChatRequest.Extra body !! "temperature" = Some (VString "hot")
    /\ OpenAIChatRequest.Extra body !! "user" = Some (VString "u1").
Proof.
  eexists. split; [vm_compute; reflexivity|].
  split.
  - erewrite (Extra_keeps_what_is_not_taken (fun _ => 0%Z) sample_full_request);
      [|vm_compute; reflexivity|vm_compute; reflexivity].
    vm_compute. reflexivity.
  - vm_compute. reflexivity.
Defined.

Lemma request_without_messages_is_rejected_witness :
  handleChatCompletions "gpt-4o" (list (string * string)) sample_getProviderInfo
    (fun _ => "") (fun _ => 0%Z) sample_world Conn_start [("x", "openai")]
    (sample "{'model':'x','messages':[]}")
  = Rejected 400
      {| ErrorResponse.Message := "Missing or invalid 'messages' field";
         ErrorResponse.Type_ := "invalid_request_error";
         ErrorResponse.Details := "" |}.
Proof.
  eapply (request_without_messages_is_rejected "gpt-4o" (list (string * string))
            sample_getProviderInfo (fun _ => "") (fun _ => 0%Z)).
  - vm_compute. reflexivity.
  - right. right. vm_compute. reflexivity.
Defined.

Lemma turns_go_upstream_one_to_one_witness :
  exists requestBody,
    handleChatCompletions "gpt-4o" (list (string * string)) sample_getProviderInfo
      (fun _ => "") (fun _ => 0%Z) sample_world Conn_start [("x", "openai")]
      sample_full_request = Upstream requestBody true "gpt-4o"
    /\ length (RaycastChatRequest.Messages (request requestBody)) = 2%nat.
Proof.
  eexists. split; [vm_compute; reflexivity|].
  edestruct (turns_go_upstream_one_to_one "gpt-4o" (list (string * string))
               sample_getProviderInfo (fun _ => "") (fun _ => 0%Z) sample_world
               Conn_start [("x", "openai")] sample_full_request)
    as (items & Hitems & _ & Hlen & _);
    [vm_compute; reflexivity|vm_compute; reflexivity|].
  vm_compute. reflexivity.
Defined.

Lemma system_instruction_default_witness :
  exists requestBody,
    handleChatCompletions "gpt-4o" (list (string * string)) sample_getProviderInfo
      (fun _ => "") (fun _ => 0%Z) sample_world Conn_start [("x", "openai")]
      sample_full_request = Upstream requestBody true "gpt-4o"
    /\ RaycastChatRequest.SystemInstruction (request requestBody) = "be brief".
Proof.
  eexists. split; [vm_compute; reflexivity|].
  erewrite (system_instruction_default "gpt-4o" (list (string * string))
              sample_getProviderInfo (fun _ => "") (fun _ => 0%Z) sample_world
              Conn_start [("x", "openai")] sample_full_request);
    [|vm_compute; reflexivity|vm_compute; reflexivity].
  vm_compute. reflexivity.
Defined.

Lemma max_tokens_merged_when_positive_witness :
  exists requestBody,
    handleChatCompletions "gpt-4o" (list (string * string)) sample_getProviderInfo
      (fun _ => "") (fun _ => 0%Z) sample_world Conn_start [("x", "openai")]
      sample_full_request = Upstream requestBody true "gpt-4o"
    /\ max_tokens requestBody = Some 12%Z.
Proof.
  eexists. split; [vm_compute; reflexivity|].
  erewrite (max_tokens_merged_when_positive "gpt-4o" (list (string * string))
              sample_getProviderInfo (fun _ => "") (fun _ => 0%Z) sample_world
              Conn_start [("x", "openai")] sample_full_request);
    [|vm_compute; reflexivity|vm_compute; reflexivity].
  vm_compute. reflexivity.
Defined.

Lemma model_and_stream_defaults_witness :
  exists requestBody stream model,
    handleChatCompletions "gpt-4o" (list (string * string)) sample_getProviderInfo
      (fun _ => "") (fun _ => 0%Z) sample_world Conn_start [("x", "openai")]
      sample_full_request = Upstream requestBody stream model
    /\ model = "gpt-4o" /\ stream = true.
Proof.
  eexists _, _, _. split; [vm_compute; reflexivity|].
  edestruct (model_and_stream_defaults "gpt-4o" (list (string * string))
               sample_getProviderInfo (fun _ => "") (fun _ => 0%Z) sample_world
               Conn_start [("x", "openai")] sample_full_request)
    as (Hm & Hs & _);
    [vm_compute; reflexivity|vm_compute; reflexivity|].
  split; reflexivity.
Defined.

(** ** Both paths on the same events *)

Lemma sse_stream_lines (ps : list string) :
  sse_stream ps = joinLines (ps ≫= fun p => ["data:" +:+ p; ""]).
Proof.
  induction ps as [|p ps IH]; [done|].
  cbn [sse_stream foldr mbind list_bind app]. fold (sse_stream ps).
  rewrite IH. unfold sse_event.
  change (joinLines (("data:" +:+ p) :: "" :: ?l))
    with (("data:" +:+ p) +:+ NL +:+ "" +:+ NL +:+ joinLines l).
  by rewrite !string_app_nil_l, !string_app_assoc.
Qed.

Lemma dropCR_data (p : string) :
  dropCR p = p -> dropCR ("data:" +:+ p) = "data:" +:+ p.
Proof.
  intros Hp. destruct p as [|c p]; [done|].
  change ("data:" +:+ String c p)
    with (String "d" (String "a" (String "t" (String "a" (String ":" (String c p)))))).
  cbn [dropCR]. cbn [dropCR] in Hp. by rewrite Hp.
Qed.

Lemma lineText_data (p : string) :
  (Unmarshal_RaycastSSEData (TrimSpace p) = None -> Unmarshal_map (TrimSpace p) = None) ->
  lineText ("data:" +:+ p) = payloadText p.
Proof.
  intros Hp. unfold lineText, payloadText.
  change (HasPrefix ("data:" +:+ p) "data:") with true.
  change (TrimPrefix ("data:" +:+ p) "data:") with p.
  cbv iota. unfold extractFragment.
  destruct (String.eqb_spec (TrimSpace p) "[DONE]") as [->|_]; [done|].
  destruct (Unmarshal_RaycastSSEData (TrimSpace p)) as [d|].
  - by destruct (String.eqb_spec (RaycastSSEData.Text d) "") as [->|].
  - by rewrite Hp.
Qed.

Lemma spec_stream_events_text (w : World) (modelId : string) (k : nat)
    (parsed : list (option RaycastSSEData.t)) :
  written_text (spec_stream_events w modelId k parsed ++ [DoneEvent; FlushEvent])
  = concatText ((fun o => match o with
                          | Some d => RaycastSSEData.Text d
                          | None => ""
                          end) <$> parsed).
Proof.
  revert k. induction parsed as [|[d|] parsed IH]; intros k.
  - done.
  - cbn [spec_stream_events fmap list_fmap]. unfold written_text in *.
    cbn [app omap list_omap]. unfold concatText in *. cbn [foldr].
    rewrite IH. unfold chunk_text, concatText. simpl.
    by rewrite string_app_empty_r.
  - cbn [spec_stream_events fmap list_fmap]. rewrite IH.
    unfold concatText. by cbn [foldr].
Qed.

(** X19: for a stream of events whose payloads are plain (one line that
    fits the scanner, no trailing carriage return, and readable without the
    generic search or not at all), the texts of the chunks that the
    streaming path writes, one after the other, are the text that the
    non-streaming path extracts from the same body. *)
Theorem both_paths_deliver_the_same_text (w : World) (modelId : string)
    (ps : list string) :
  Forall plain_payload ps ->
  written_text (written (handleStreamingResponse w modelId Conn_start (sse_stream ps)))
  = parseSSEResponse (sse_stream ps).
Proof.
  intros Hps.
  rewrite events_give_chunks_in_order
    by (eapply Forall_impl; [exact Hps|by intros ? []]).
  rewrite spec_stream_events_text, <- list_fmap_compose.
  rewrite sse_stream_lines, lines_text_in_order.
  2:{ induction Hps as [|p ps (Hnl & Hfit & _) _ IH]; [constructor|].
      cbn [mbind list_bind app]. repeat constructor; try done. }
  induction Hps as [|p ps (Hnl & Hfit & Hcr & Hgen) _ IH]; [done|].
  cbn [mbind list_bind app fmap list_fmap]. unfold concatText in *. cbn [foldr].
  rewrite IH, (dropCR_data _ Hcr), (lineText_data _ Hgen).
  change (lineText (dropCR "")) with "". by rewrite string_app_nil_l.
Qed.

Lemma both_paths_deliver_the_same_text_witness :
  written_text
    (written (handleStreamingResponse sample_world "x" Conn_start
                (sse_stream [sample " {'text':'Hello'}";
                             sample " {'text':' there','finish_reason':'stop'}";
                             " [DONE]"])))
  = parseSSEResponse
      (sse_stream [sample " {'text':'Hello'}";
                   sample " {'text':' there','finish_reason':'stop'}";
                   " [DONE]"]).
Proof.
  apply both_paths_deliver_the_same_text.
  repeat constructor; try (vm_compute; reflexivity);
    intros H; vm_compute in H; discriminate.
Defined.

(** A payload that only the generic search can read gives text in the
    non-streaming path and a stream without chunk in the streaming path. *)
Example generic_payload_differs :
  parseSSEResponse (sse_stream [" " +:+ sample_mistyped_payload]) = "hi"
  /\ written (handleStreamingResponse sample_world "x" Conn_start
                (sse_stream [" " +:+ sample_mistyped_payload]))
     = [DoneEvent; FlushEvent].
Proof. split; vm_compute; reflexivity. Qed.
